(** * The AIE profile CT writer (profile/plugin/aie_profile/ve2)

    A shallow embedding of [aie_profile_ct_writer.cpp] and the properties of
    its discovery / parse / associate / emit pipeline.

    Layout:
    - [Cxx]: the pieces of the C++ runtime the translation unit leans on
      (exceptions, fixed-width integers, <cctype>, [std::stoi], stream
      formatting of integers, the matcher behind [std::regex],
      [std::sort]);
    - [StaticInfo], [Host]: the collaborators (counter store, file system);
    - [CTWriter]: the structs and the member functions of
      [AieProfileCTWriter], one definition per member function, with the
      loops of a member function as fixpoints next to it;
    - [Spec]: the vocabulary the statements are phrased in;
    - [Examples]: sample devices and directories;
    - the lemmas and the theorems, grouped by member function.

    Exceptions are explicit: a member function that can be left through a
    throw returns an [Exc].  The file system and the counter store are
    read-only inputs; the one effect, the CT file written at the end, is
    part of the result of generate().  Diagnostics sent through
    [xrt_core::message::send] do not influence any value computed by the
    writer and are left out of the embedding. *)

From Stdlib Require Import ZArith List String Ascii Bool Lia.
From Stdlib Require Import Permutation Sorted.
Import ListNotations.

Local Open Scope string_scope.
Local Open Scope Z_scope.

(* ================================================================== *)
(** ** C++ runtime *)
(* ================================================================== *)

Module Cxx.

(** *** Exceptions *)

Inductive exn : Type :=
| invalid_argument      (* std::invalid_argument *)
| out_of_range          (* std::out_of_range *)
| filesystem_error.     (* std::filesystem::filesystem_error *)

(** A computation that either returns or leaves through a throw. *)
Inductive Exc (A : Type) : Type :=
| Ok (a : A)
| Throw (e : exn).
Arguments Ok {A} a.
Arguments Throw {A} e.

Definition bind {A B : Type} (m : Exc A) (k : A -> Exc B) : Exc B :=
  match m with
  | Ok a => k a
  | Throw e => Throw e
  end.

Notation "x <- m ;; k" := (bind m (fun x => k))
  (at level 61, m at next level, right associativity).

(** *** Fixed-width integers, carried by [Z] *)

Definition INT_MAX : Z := 2147483647.
Definition INT_MIN : Z := -2147483648.

Definition u64 (z : Z) : Z := z mod 2 ^ 64.
Definition u32 (z : Z) : Z := z mod 2 ^ 32.

(** [int] results are reduced to the two's-complement range.  Signed
    overflow is undefined in C++; the usual targets wrap, and so does the
    embedding.  Every statement that depends on it carries a range bound. *)
Definition int (z : Z) : Z := (z + 2 ^ 31) mod 2 ^ 32 - 2 ^ 31.

(** [uint64_t << n]; C++ defines it for [n < 64] only. *)
Definition shl64 (x n : Z) : Z := u64 (Z.shiftl x n).
Definition add64 (x y : Z) : Z := u64 (x + y).

(** *** <cctype> in the "C" locale *)

Definition code (c : ascii) : Z := Z.of_N (N_of_ascii c).

Definition isdigit (c : ascii) : bool := (48 <=? code c) && (code c <=? 57).

Definition isspace (c : ascii) : bool :=
  (code c =? 32) || ((9 <=? code c) && (code c <=? 13)).

Definition isupper (c : ascii) : bool := (65 <=? code c) && (code c <=? 90).

Definition tolower (c : ascii) : ascii :=
  if isupper c then ascii_of_N (Z.to_N (code c + 32)) else c.

(** *** Strings *)

Definition empty (s : string) : bool :=
  match s with EmptyString => true | String _ _ => false end.

Fixpoint map_string (f : ascii -> ascii) (s : string) : string :=
  match s with
  | EmptyString => EmptyString
  | String c s' => String (f c) (map_string f s')
  end.

Fixpoint all_chars (p : ascii -> bool) (s : string) : bool :=
  match s with
  | EmptyString => true
  | String c s' => p c && all_chars p s'
  end.

(** Longest prefix of [s] whose characters satisfy [p], and what follows. *)
Fixpoint take_while (p : ascii -> bool) (s : string) : string :=
  match s with
  | EmptyString => EmptyString
  | String c s' => if p c then String c (take_while p s') else EmptyString
  end.

Fixpoint drop_while (p : ascii -> bool) (s : string) : string :=
  match s with
  | EmptyString => EmptyString
  | String c s' => if p c then drop_while p s' else s
  end.

(** *** [std::stoi] (base 10)

    Skips leading white space, accepts one sign, reads the longest run of
    digits; throws [std::invalid_argument] when there is no digit and
    [std::out_of_range] when the value does not fit an [int]. *)

Definition digit_value (c : ascii) : Z := code c - 48.

Fixpoint decimal_value (acc : Z) (s : string) : Z :=
  match s with
  | EmptyString => acc
  | String c s' => decimal_value (acc * 10 + digit_value c) s'
  end.

Definition stoi (str : string) : Exc Z :=
  let s := drop_while isspace str in
  let '(neg, s) :=
    match s with
    | String "-" s' => (true, s')
    | String "+" s' => (false, s')
    | _ => (false, s)
    end in
  let digits := take_while isdigit s in
  if empty digits then Throw invalid_argument
  else
    let v := decimal_value 0 digits in
    let v := if neg then - v else v in
    if (INT_MIN <=? v) && (v <=? INT_MAX) then Ok v else Throw out_of_range.

(** *** [operator<<] on integers *)

Definition digit_char (d : Z) : ascii :=
  ascii_of_N (Z.to_N (if d <? 10 then 48 + d else 87 + d)).

(** Digits of [n] in [base], most significant first; [fuel] bounds the
    number of digits produced (20 decimal or 16 hexadecimal digits hold
    any 64-bit value). *)
Fixpoint digits_of (base : Z) (fuel : nat) (n : Z) (acc : string) : string :=
  match fuel with
  | O => acc
  | S fuel' =>
      let acc' := String (digit_char (n mod base)) acc in
      if n / base =? 0 then acc' else digits_of base fuel' (n / base) acc'
  end.

(** Decimal output of a signed or unsigned integer. *)
Definition dec (n : Z) : string :=
  if n <? 0 then String "-" (digits_of 10 20 (- n) EmptyString)
  else digits_of 10 20 n EmptyString.

(** [std::hex] output of a [uint64_t]: lowercase, no prefix. *)
Definition hex (n : Z) : string := digits_of 16 16 n EmptyString.

Fixpoint repeat_char (c : ascii) (n : nat) : string :=
  match n with
  | O => EmptyString
  | S n' => String c (repeat_char c n')
  end.

(** [std::setfill(c) << std::setw(w)] applied to the next item: pads on
    the left up to [w] characters and never cuts. *)
Definition setw_fill (w : nat) (c : ascii) (item : string) : string :=
  repeat_char c (w - String.length item) ++ item.

(** *** [std::regex] (ECMAScript grammar, backtracking matcher)

    The fragment the two patterns of the writer are made of: runs of
    ordinary characters, greedy [*] and [+] over a character class, one
    level of capture groups and concatenation. *)

Inductive regex : Type :=
| Lit (s : string)                 (* ordinary characters *)
| Star (cls : ascii -> bool)       (* cls*  *)
| Plus (cls : ascii -> bool)       (* cls+  *)
| Group (r : regex)                (* ( r ) *)
| Cat (r1 r2 : regex).

(** [std::regex::icase] compares ordinary characters through
    [regex_traits::translate_nocase], that is [tolower]. *)
Definition translate (icase : bool) (c : ascii) : ascii :=
  if icase then tolower c else c.

(** The text left after the literal [p] at the head of [s]. *)
Fixpoint match_lit (icase : bool) (p s : string) : option string :=
  match p with
  | EmptyString => Some s
  | String a p' =>
      match s with
      | String c s' =>
          if Ascii.eqb (translate icase a) (translate icase c)
          then match_lit icase p' s' else None
      | EmptyString => None
      end
  end.

(** Greedy repetition: the longest run first, giving characters back one
    at a time while the continuation [k] fails. *)
Fixpoint match_star {R : Type} (cls : ascii -> bool) (s : string)
         (k : string -> option R) : option R :=
  match s with
  | String c s' =>
      if cls c then
        match match_star cls s' k with
        | Some r => Some r
        | None => k s
        end
      else k s
  | EmptyString => k s
  end.

(** The part of [s] in front of its suffix [rest]. *)
Definition consumed (s rest : string) : string :=
  substring 0 (String.length s - String.length rest) s.

(** [run icase r s caps k] matches [r] at the head of [s]; [k] receives
    the remaining text and the sub-matches closed so far. *)
Fixpoint run {R : Type} (icase : bool) (r : regex) (s : string)
         (caps : list string)
         (k : string -> list string -> option R) : option R :=
  match r with
  | Lit p =>
      match match_lit icase p s with
      | Some s' => k s' caps
      | None => None
      end
  | Star cls => match_star cls s (fun s' => k s' caps)
  | Plus cls =>
      match s with
      | String c s' =>
          if cls c then match_star cls s' (fun s'' => k s'' caps) else None
      | EmptyString => None
      end
  | Group r1 =>
      run icase r1 s caps (fun s' caps' => k s' (caps' ++ [consumed s s'])%list)
  | Cat r1 r2 =>
      run icase r1 s caps (fun s' caps' => run icase r2 s' caps' k)
  end.

(** [std::regex_match]: the whole of [s] has to match.  The result lists
    the sub-matches, [match[1]] first. *)
Definition regex_match (icase : bool) (r : regex) (s : string)
  : option (list string) :=
  run icase r s [] (fun rest caps => if empty rest then Some caps else None).

(** [std::regex_search]: the match that starts leftmost in [s]. *)
Fixpoint regex_search (icase : bool) (r : regex) (s : string)
  : option (list string) :=
  match run icase r s [] (fun _ caps => Some caps) with
  | Some caps => Some caps
  | None =>
      match s with
      | EmptyString => None
      | String _ s' => regex_search icase r s'
      end
  end.

(** [match[i].str()] for [i >= 1]. *)
Definition submatch (caps : list string) (i : nat) : string :=
  nth (i - 1) caps EmptyString.

(** *** [std::sort]

    The standard fixes the result of [std::sort] up to the order of the
    elements that compare equivalent, and a library is free in it (an
    introsort moves such elements once the range is long enough).  The
    writer is therefore embedded over the sort of the library it is linked
    with: any function that, for a comparison of integer keys, returns an
    ordered permutation of its input. *)

Class StdSort : Type := {
  std_sort : forall A : Type, (A -> A -> bool) -> list A -> list A;
  std_sort_Permutation :
    forall (A : Type) (key : A -> Z) (l : list A),
      Permutation (std_sort A (fun a b => key a <? key b) l) l;
  std_sort_ordered :
    forall (A : Type) (key : A -> Z) (l : list A),
      StronglySorted Z.le
        (map key (std_sort A (fun a b => key a <? key b) l))
}.
Arguments std_sort {_} {A} less l.

(** One such library: a sort by insertion, which is what the sample runs
    are evaluated with. *)

Section Sort.
Context {A : Type} (less : A -> A -> bool).

Fixpoint insert_sorted (x : A) (l : list A) : list A :=
  match l with
  | [] => [x]
  | y :: l' => if less y x then y :: insert_sorted x l' else x :: l
  end.

Fixpoint sort (l : list A) : list A :=
  match l with
  | [] => []
  | x :: l' => insert_sorted x (sort l')
  end.

End Sort.

Definition insertion_sort : StdSort.
Proof.
  assert (Hins : forall (A : Type) (key : A -> Z) (x : A) (l : list A),
             Permutation (insert_sorted (fun a b => key a <? key b) x l)
                         (x :: l)).
  { intros A key x l. induction l as [|y l IH]; simpl; [reflexivity|].
    destruct (key y <? key x); [|reflexivity].
    apply (perm_trans (perm_skip y IH)). apply perm_swap. }
  refine {| std_sort := @sort |}.
  - intros A key l. induction l as [|x l IH]; simpl; [constructor|].
    apply (perm_trans (Hins A key x _)). now constructor.
  - intros A key l. induction l as [|x l IH]; simpl; [constructor|].
    revert IH. generalize (sort (fun a b => key a <? key b) l).
    clear l. intros l. induction l as [|y l IH]; simpl; intros H.
    + repeat constructor.
    + inversion H as [|? ? Hs Hall]; subst.
      destruct (Z.ltb_spec (key y) (key x)) as [Hlt|Hge].
      * simpl. constructor; [now apply IH|].
        apply Forall_forall. intros k Hk.
        apply in_map_iff in Hk as (z & <- & Hz).
        apply (Permutation_in _ (Hins A key x l)) in Hz.
        destruct Hz as [<-|Hz]; [lia|].
        rewrite Forall_forall in Hall. apply Hall. now apply in_map.
      * simpl. constructor; [exact H|].
        constructor; [exact Hge|].
        eapply Forall_impl; [|exact Hall]. simpl. intros. lia.
Defined.

End Cxx.

(* ================================================================== *)
(** ** Collaborators *)
(* ================================================================== *)

(** The static-info store. *)
Module StaticInfo.

(** [AIECounter] is declared in [database/static_info/aie_constructs.h],
    which is not among the sources.  The record holds the four members
    getConfiguredCounters reads through [aieCounter->]; [column], [row]
    and [counterNumber] are passed on as [uint8_t]. *)
Record AIECounter : Type := {
  column : Z;
  row : Z;
  counterNumber : Z;
  module : string
}.

(** [getAIECounter(deviceId, i)] for [i < getNumAIECounter(deviceId)]; a
    null pointer is [None]. *)
Definition Store : Type := Z -> list (option AIECounter).

End StaticInfo.

(** The host file system as the writer observes it. *)
Module Host.

Record DirEntry : Type := {
  path : string;              (* entry.path().string() *)
  is_regular_file : bool
}.

(** One step of the loop over [fs::recursive_directory_iterator]: the
    next entry, or an exception of the file-system library (raised while
    advancing the iterator or querying the entry). *)
Inductive DirStep : Type :=
| Entry (e : DirEntry)
| IterFault.

Record FileSystem : Type := {
  current_path : string;                    (* fs::current_path() *)
  listing : list DirStep;                   (* entries under it, in iteration order *)
  readable : list (string * list string);   (* path |-> the lines std::getline yields *)
  output_openable : bool                    (* std::ofstream opens the CT file *)
}.

(** [std::ifstream file(path)]: the lines of the file when it opens. *)
Fixpoint ifstream (files : list (string * list string)) (p : string)
  : option (list string) :=
  match files with
  | [] => None
  | (q, lines) :: files' =>
      if String.eqb q p then Some lines else ifstream files' p
  end.

Fixpoint has_separator (p : string) : bool :=
  match p with
  | EmptyString => false
  | String c p' => Ascii.eqb c "/" || has_separator p'
  end.

(** [fs::path(p).filename().string()] *)
Fixpoint path_filename (p : string) : string :=
  match p with
  | EmptyString => EmptyString
  | String c p' =>
      if has_separator p' then path_filename p'
      else if Ascii.eqb c "/" then p' else p
  end.

Definition is_absolute (p : string) : bool :=
  match p with
  | String c _ => Ascii.eqb c "/"
  | EmptyString => false
  end.

(** [fs::path(p).has_filename()]: [p] is not empty and does not end in a
    separator (the root directory ends in one). *)
Fixpoint has_filename (p : string) : bool :=
  match p with
  | EmptyString => false
  | String c EmptyString => negb (Ascii.eqb c "/")
  | String _ p' => has_filename p'
  end.

(** [(dir / name).string()]: an absolute [name] replaces [dir]; otherwise
    [name] is appended, after a separator when [dir] has a file name. *)
Definition path_append (dir name : string) : string :=
  if is_absolute name then name
  else if has_filename dir then dir ++ "/" ++ name
  else dir ++ name.

(** [p] is among the entries the iterator reports. *)
Definition listed (p : string) (steps : list DirStep) : bool :=
  existsb (fun step =>
             match step with
             | Entry e => String.eqb (path e) p
             | IterFault => false
             end) steps.

(** The file system once the regular file [p] has been created or
    truncated and given the lines [lines]; a file that is new is reported
    by the iterator at place [pos]. *)
Definition with_file (fs : FileSystem) (pos : nat) (p : string)
           (lines : list string) : FileSystem :=
  {| current_path := current_path fs;
     listing :=
       if listed p (listing fs) then listing fs
       else (firstn pos (listing fs)
             ++ Entry {| path := p; is_regular_file := true |}
             :: skipn pos (listing fs))%list;
     readable := (p, lines) :: readable fs;
     output_openable := output_openable fs |}.

(** The same file system with the CT file refusing to open. *)
Definition unwritable (fs : FileSystem) : FileSystem :=
  {| current_path := current_path fs;
     listing := listing fs;
     readable := readable fs;
     output_openable := false |}.

End Host.

(* ================================================================== *)
(** ** AieProfileCTWriter *)
(* ================================================================== *)

Module CTWriter.
Import Cxx.

(** *** Declarations of [aie_profile_ct_writer.h]

    The header is not among the sources.  The records below hold the
    members the translation unit reads and assigns, with the types its
    signatures, locals and casts give them. *)

(** [lineNumber] receives the [uint32_t] line counter, [optionalIndex]
    the [int] of [std::stoi] or [-1]. *)
Record SaveTimestampInfo : Type := {
  lineNumber : Z;        (* uint32_t *)
  optionalIndex : Z      (* int *)
}.

(** The first three members are the arguments of
    [calculateCounterAddress(uint8_t, uint8_t, uint8_t, ...)], [address]
    receives its [uint64_t] result. *)
Record CTCounterInfo : Type := {
  column : Z;            (* uint8_t *)
  row : Z;               (* uint8_t *)
  counterNumber : Z;     (* uint8_t *)
  module : string;
  address : Z            (* uint64_t *)
}.

(** [asmId] receives the [int] of [std::stoi]; [colStart] and [colEnd]
    are passed to the [int] parameters of filterCountersByColumn. *)
Record ASMFileInfo : Type := {
  filename : string;
  asmId : Z;             (* int *)
  ucNumber : Z;          (* int *)
  colStart : Z;          (* int *)
  colEnd : Z;            (* int *)
  timestamps : list SaveTimestampInfo;
  counters : list CTCounterInfo
}.

(** The constants of the header that the translation unit names: the four
    per-module base offsets returned as [uint64_t] and the output file
    name.  Their values are not in the sources; the development takes
    them as parameters. *)
Record Header : Type := {
  CORE_MODULE_BASE_OFFSET : Z;      (* uint64_t *)
  MEMORY_MODULE_BASE_OFFSET : Z;    (* uint64_t *)
  MEM_TILE_BASE_OFFSET : Z;         (* uint64_t *)
  SHIM_TILE_BASE_OFFSET : Z;        (* uint64_t *)
  CT_OUTPUT_FILENAME : string
}.

(** The data members of the writer that the member functions read: the
    device id and the two shifts set by the constructor. *)
Record AieProfileCTWriter : Type := {
  deviceId : Z;
  columnShift : Z;
  rowShift : Z
}.

(** What [metadata->getAIEConfigMetadata()] hands to the constructor, as
    far as the constructor reads it. *)
Record AIEConfig : Type := {
  column_shift : Z;
  row_shift : Z
}.

Definition AieProfileCTWriter_new (config : AIEConfig) (deviceId : Z)
  : AieProfileCTWriter :=
  {| deviceId := deviceId;
     columnShift := column_shift config;
     rowShift := row_shift config |}.

(** *** The two patterns *)

(** [aie_runtime_control(\d+)\.asm] *)
Definition filenamePattern : regex :=
  Cat (Lit "aie_runtime_control") (Cat (Group (Plus isdigit)) (Lit ".asm")).

(** [\s*SAVE_TIMESTAMPS\s*] followed by the capture group around [\d*];
    compiled with [std::regex::icase] *)
Definition timestampPattern : regex :=
  Cat (Star isspace)
      (Cat (Lit "SAVE_TIMESTAMPS") (Cat (Star isspace) (Group (Star isdigit)))).

(** *** findASMFiles *)

Definition new_ASMFileInfo (path : string) (id : Z) : ASMFileInfo :=
  let colStart := int (id * 4) in
  {| filename := path;
     asmId := id;
     ucNumber := int (4 * id);
     colStart := colStart;
     colEnd := int (colStart + 3);
     timestamps := [];
     counters := [] |}.

(** The body of the [try] block.  An exception, from the iterator or from
    [std::stoi], ends the loop with what was collected so far. *)
Fixpoint scan_directory (steps : list Host.DirStep) (asmFiles : list ASMFileInfo)
  : list ASMFileInfo :=
  match steps with
  | [] => asmFiles
  | Host.IterFault :: _ => asmFiles
  | Host.Entry entry :: rest =>
      if negb (Host.is_regular_file entry) then scan_directory rest asmFiles
      else
        match regex_match false filenamePattern
                          (Host.path_filename (Host.path entry)) with
        | Some m =>
            match stoi (submatch m 1) with
            | Ok id =>
                scan_directory rest
                  (asmFiles ++ [new_ASMFileInfo (Host.path entry) id])%list
            | Throw _ => asmFiles
            end
        | None => scan_directory rest asmFiles
        end
  end.

Definition findASMFiles {lib : StdSort} (fs : Host.FileSystem)
  : list ASMFileInfo :=
  std_sort (fun a b => asmId a <? asmId b)
           (scan_directory (Host.listing fs) []).

(** *** parseSaveTimestamps *)

(** The [while (std::getline(file, line))] loop. *)
Fixpoint parse_lines (lines : list string) (lineNumber : Z)
         (timestamps : list SaveTimestampInfo)
  : Exc (list SaveTimestampInfo) :=
  match lines with
  | [] => Ok timestamps
  | line :: rest =>
      let lineNumber := u32 (lineNumber + 1) in
      match regex_search true timestampPattern line with
      | Some m =>
          index <- (if negb (empty (submatch m 1)) then stoi (submatch m 1)
                    else Ok (-1)) ;;
          parse_lines rest lineNumber
            (timestamps ++ [{| lineNumber := lineNumber;
                               optionalIndex := index |}])%list
      | None => parse_lines rest lineNumber timestamps
      end
  end.

Definition parseSaveTimestamps (fs : Host.FileSystem) (filepath : string)
  : Exc (list SaveTimestampInfo) :=
  match Host.ifstream (Host.readable fs) filepath with
  | None => Ok []
  | Some lines => parse_lines lines 0 []
  end.

(** Assignments to the two vector members of an [ASMFileInfo]. *)
Definition set_timestamps (asmFile : ASMFileInfo)
           (ts : list SaveTimestampInfo) : ASMFileInfo :=
  {| filename := filename asmFile;
     asmId := asmId asmFile;
     ucNumber := ucNumber asmFile;
     colStart := colStart asmFile;
     colEnd := colEnd asmFile;
     timestamps := ts;
     counters := counters asmFile |}.

Definition set_counters (asmFile : ASMFileInfo)
           (cs : list CTCounterInfo) : ASMFileInfo :=
  {| filename := filename asmFile;
     asmId := asmId asmFile;
     ucNumber := ucNumber asmFile;
     colStart := colStart asmFile;
     colEnd := colEnd asmFile;
     timestamps := timestamps asmFile;
     counters := cs |}.

(** *** filterCountersByColumn *)

Fixpoint filterCountersByColumn (allCounters : list CTCounterInfo)
         (colStart colEnd : Z) : list CTCounterInfo :=
  match allCounters with
  | [] => []
  | counter :: rest =>
      if (column counter >=? colStart) && (column counter <=? colEnd)
      then counter :: filterCountersByColumn rest colStart colEnd
      else filterCountersByColumn rest colStart colEnd
  end.

(** *** formatAddress *)

Definition formatAddress (address : Z) : string :=
  "0x" ++ setw_fill 10 "0" (hex address).

(** *** writeCTFile *)

Definition nl : string := String "010" EmptyString.   (* the character \n *)
Definition dq : string := String "034" EmptyString.   (* the double quote *)
Definition quoted (s : string) : string := dq ++ s ++ dq.

(** What the run leaves on disk. *)
Record CTFile : Type := {
  ct_path : string;
  ct_text : string
}.

Definition header_comment : string :=
  "# Auto-generated CT file for AIE Profile counters" ++ nl ++
  "# Generated by XRT AIE Profile Plugin" ++ nl ++ nl.

Definition begin_block_open : string :=
  "begin" ++ nl ++
  "{" ++ nl ++
  "    ts_start = timestamp32()" ++ nl ++
  "    print(" ++ quoted "\nAIE Profile tracing started\n" ++ ")" ++ nl ++
  "@blockopen" ++ nl ++
  "import json" ++ nl ++
  "import os" ++ nl ++
  nl ++
  "# Initialize data collection" ++ nl ++
  "profile_data = {" ++ nl ++
  "    " ++ quoted "start_timestamp" ++ ": ts_start," ++ nl ++
  "    " ++ quoted "counter_metadata" ++ ": [" ++ nl.

Definition counter_metadata_entry (counter : CTCounterInfo) : string :=
  "        {" ++ quoted "column" ++ ": " ++ dec (column counter) ++
  ", " ++ quoted "row" ++ ": " ++ dec (row counter) ++
  ", " ++ quoted "counter" ++ ": " ++ dec (counterNumber counter) ++
  ", " ++ quoted "module" ++ ": " ++ dq ++ module counter ++
  dq ++ ", " ++ quoted "address" ++ ": " ++ dq ++
  formatAddress (address counter) ++ dq ++ "}".

(** The counter-metadata loop, from index [i] on; [size] is
    [allCounters.size()] and the comparison is the one on [size_t]. *)
Fixpoint write_counter_metadata (remaining : list CTCounterInfo) (i size : Z)
  : string :=
  match remaining with
  | [] => EmptyString
  | counter :: rest =>
      counter_metadata_entry counter ++
      (if i <? u64 (size - 1) then "," else EmptyString) ++ nl ++
      write_counter_metadata rest (u64 (i + 1)) size
  end.

Definition begin_block_close : string :=
  "    ]," ++ nl ++
  "    " ++ quoted "probes" ++ ": []" ++ nl ++
  "}" ++ nl ++
  "@blockclose" ++ nl ++
  "}" ++ nl ++ nl.

Fixpoint write_line_list (ts : list SaveTimestampInfo) (i : Z) : string :=
  match ts with
  | [] => EmptyString
  | t :: rest =>
      (if i >? 0 then "," else EmptyString) ++ dec (lineNumber t) ++
      write_line_list rest (u64 (i + 1))
  end.

Fixpoint write_counter_reads (cs : list CTCounterInfo) (i : Z) : string :=
  match cs with
  | [] => EmptyString
  | c :: rest =>
      "    ctr_" ++ dec i ++ " = read_reg(" ++ formatAddress (address c) ++
      ")" ++ nl ++ write_counter_reads rest (u64 (i + 1))
  end.

Fixpoint write_counter_names (cs : list CTCounterInfo) (i : Z) : string :=
  match cs with
  | [] => EmptyString
  | c :: rest =>
      (if i >? 0 then ", " else EmptyString) ++ "ctr_" ++ dec i ++
      write_counter_names rest (u64 (i + 1))
  end.

(** The jprobe block of one ASM file. *)
Definition probe_block (asmFile : ASMFileInfo) : string :=
  let basename := Host.path_filename (filename asmFile) in
  let lineList := "line" ++ write_line_list (timestamps asmFile) 0 in
  "# Probes for " ++ basename ++ " (columns " ++ dec (colStart asmFile) ++
  "-" ++ dec (colEnd asmFile) ++ ")" ++ nl ++
  "jprobe:" ++ basename ++ ":uc" ++ dec (ucNumber asmFile) ++ ":" ++
  lineList ++ nl ++
  "{" ++ nl ++
  "    ts = timestamp32()" ++ nl ++
  write_counter_reads (counters asmFile) 0 ++
  "    print(f" ++ quoted "Probe fired: ts={ts}" ++ ")" ++ nl ++
  "@blockopen" ++ nl ++
  "profile_data[" ++ quoted "probes" ++ "].append({" ++ nl ++
  "    " ++ quoted "asm_file" ++ ": " ++ dq ++ basename ++ dq ++ "," ++ nl ++
  "    " ++ quoted "timestamp" ++ ": ts," ++ nl ++
  "    " ++ quoted "counters" ++ ": [" ++
  write_counter_names (counters asmFile) 0 ++
  "]" ++ nl ++
  "})" ++ nl ++
  "@blockclose" ++ nl ++
  "}" ++ nl ++ nl.

Definition is_nil {A : Type} (l : list A) : bool :=
  match l with [] => true | _ :: _ => false end.

(** The loop over the ASM files, with its [continue]. *)
Fixpoint write_probes (asmFiles : list ASMFileInfo) : string :=
  match asmFiles with
  | [] => EmptyString
  | asmFile :: rest =>
      if is_nil (timestamps asmFile) || is_nil (counters asmFile)
      then write_probes rest
      else probe_block asmFile ++ write_probes rest
  end.

Definition end_block : string :=
  "end" ++ nl ++
  "{" ++ nl ++
  "    ts_end = timestamp32()" ++ nl ++
  "    print(" ++ quoted "\nAIE Profile tracing ended\n" ++ ")" ++ nl ++
  "@blockopen" ++ nl ++
  "profile_data[" ++ quoted "end_timestamp" ++ "] = ts_end" ++ nl ++
  "profile_data[" ++ quoted "total_time" ++ "] = ts_end - profile_data[" ++
  quoted "start_timestamp" ++ "]" ++ nl ++
  nl ++
  "output_path = os.path.join(os.getcwd(), " ++
  quoted "aie_profile_counters.json" ++ ")" ++ nl ++
  "with open(output_path, " ++ quoted "w" ++ ") as f:" ++ nl ++
  "    json.dump(profile_data, f, indent=2)" ++ nl ++
  "print(f" ++ quoted "Profile data written to {output_path}" ++ ")" ++ nl ++
  "@blockclose" ++ nl ++
  "}" ++ nl.

(** Everything streamed into [ctFile] between its opening and its close. *)
Definition ct_contents (asmFiles : list ASMFileInfo)
           (allCounters : list CTCounterInfo) : string :=
  header_comment ++
  begin_block_open ++
  write_counter_metadata allCounters 0 (Z.of_nat (List.length allCounters)) ++
  begin_block_close ++
  write_probes asmFiles ++
  end_block.

Section WithHeader.
Variable hdr : Header.

(** *** getModuleBaseOffset *)

Definition getModuleBaseOffset (module : string) : Z :=
  if String.eqb module "aie" then CORE_MODULE_BASE_OFFSET hdr
  else if String.eqb module "aie_memory" then MEMORY_MODULE_BASE_OFFSET hdr
  else if String.eqb module "memory_tile" then MEM_TILE_BASE_OFFSET hdr
  else if String.eqb module "interface_tile" then SHIM_TILE_BASE_OFFSET hdr
  else CORE_MODULE_BASE_OFFSET hdr.

(** *** calculateCounterAddress *)

Definition calculateCounterAddress (this : AieProfileCTWriter)
           (column row counterNumber : Z) (module : string) : Z :=
  let tileAddress :=
    Z.lor (shl64 column (columnShift this)) (shl64 row (rowShift this)) in
  let baseOffset := getModuleBaseOffset module in
  let counterOffset := u64 (int (counterNumber * 4)) in
  add64 (add64 tileAddress baseOffset) counterOffset.

(** *** getConfiguredCounters *)

Fixpoint collect_counters (this : AieProfileCTWriter)
         (store : list (option StaticInfo.AIECounter)) : list CTCounterInfo :=
  match store with
  | [] => []
  | None :: rest => collect_counters this rest
  | Some aieCounter :: rest =>
      let column := StaticInfo.column aieCounter in
      let row := StaticInfo.row aieCounter in
      let counterNumber := StaticInfo.counterNumber aieCounter in
      let module := StaticInfo.module aieCounter in
      {| column := column;
         row := row;
         counterNumber := counterNumber;
         module := module;
         address := calculateCounterAddress this column row counterNumber module |}
      :: collect_counters this rest
  end.

Definition getConfiguredCounters (this : AieProfileCTWriter)
           (db : StaticInfo.Store) : list CTCounterInfo :=
  collect_counters this (db (deviceId this)).

(** The member function returns its [bool] and, when the stream opened,
    leaves the file behind.  Every insertion into the open stream is taken
    to succeed, as the code takes it: the stream state is not tested
    again before [true] is returned. *)
Definition writeCTFile (fs : Host.FileSystem) (asmFiles : list ASMFileInfo)
           (allCounters : list CTCounterInfo) : bool * option CTFile :=
  let outputPath :=
    Host.path_append (Host.current_path fs) (CT_OUTPUT_FILENAME hdr) in
  if negb (Host.output_openable fs) then (false, None)
  else (true, Some {| ct_path := outputPath;
                      ct_text := ct_contents asmFiles allCounters |}).

(** *** generate *)

(** Step 3: the loop that fills [timestamps] and [counters] of every ASM
    file and raises [hasTimestamps]. *)
Fixpoint parse_and_filter (fs : Host.FileSystem)
         (allCounters : list CTCounterInfo) (asmFiles : list ASMFileInfo)
         (hasTimestamps : bool) : Exc (list ASMFileInfo * bool) :=
  match asmFiles with
  | [] => Ok ([], hasTimestamps)
  | asmFile :: rest =>
      ts <- parseSaveTimestamps fs (filename asmFile) ;;
      let asmFile := set_timestamps asmFile ts in
      let hasTimestamps :=
        if negb (is_nil (timestamps asmFile)) then true else hasTimestamps in
      let asmFile :=
        set_counters asmFile
          (filterCountersByColumn allCounters
             (colStart asmFile) (colEnd asmFile)) in
      r <- parse_and_filter fs allCounters rest hasTimestamps ;;
      Ok (asmFile :: fst r, snd r)
  end.

Definition generate {lib : StdSort} (this : AieProfileCTWriter)
           (fs : Host.FileSystem) (db : StaticInfo.Store)
  : Exc (bool * option CTFile) :=
  let asmFiles := findASMFiles fs in
  if is_nil asmFiles then Ok (false, None)
  else
    let allCounters := getConfiguredCounters this db in
    if is_nil allCounters then Ok (false, None)
    else
      r <- parse_and_filter fs allCounters asmFiles false ;;
      let '(asmFiles, hasTimestamps) := r in
      if negb hasTimestamps then Ok (false, None)
      else Ok (writeCTFile fs asmFiles allCounters).

End WithHeader.

End CTWriter.

(* ================================================================== *)
(** ** Vocabulary of the specification *)
(* ================================================================== *)

(** The notions the statements below are phrased in.  None of them is used
    by the embedding of the code. *)
Module Spec.
Import Cxx CTWriter.

(** [needle] occurs somewhere in [text]. *)
Definition occurs_in (needle text : string) : Prop :=
  exists before after, text = before ++ needle ++ after.

(** The four module names the writer knows. *)
Definition recognized_module (module : string) : Prop :=
  module = "aie" \/ module = "aie_memory" \/
  module = "memory_tile" \/ module = "interface_tile".

(** The base offset that belongs to a module name: one of four constants,
    keyed by the name, and the constant of the core module for any other
    name. *)
Definition module_base_offset (hdr : Header) (module : string) (offset : Z)
  : Prop :=
  (module = "aie" /\ offset = CORE_MODULE_BASE_OFFSET hdr)
  \/ (module = "aie_memory" /\ offset = MEMORY_MODULE_BASE_OFFSET hdr)
  \/ (module = "memory_tile" /\ offset = MEM_TILE_BASE_OFFSET hdr)
  \/ (module = "interface_tile" /\ offset = SHIM_TILE_BASE_OFFSET hdr)
  \/ (~ recognized_module module /\ offset = CORE_MODULE_BASE_OFFSET hdr).

(** A counter as an entry of the counter-metadata list shows it: column,
    row, counter index, module and formatted address. *)
Definition metadata_record (c : CTCounterInfo) : string :=
  "{" ++ quoted "column" ++ ": " ++ dec (column c) ++ ", " ++
  quoted "row" ++ ": " ++ dec (row c) ++ ", " ++
  quoted "counter" ++ ": " ++ dec (counterNumber c) ++ ", " ++
  quoted "module" ++ ": " ++ quoted (module c) ++ ", " ++
  quoted "address" ++ ": " ++ quoted (formatAddress (address c)) ++ "}".

(** Lowercase hexadecimal digits and the number they denote. *)
Definition is_lower_hex (c : ascii) : bool :=
  isdigit c || ((97 <=? code c) && (code c <=? 102)).

Definition hex_digit_value (c : ascii) : Z :=
  if isdigit c then code c - 48 else code c - 87.

Fixpoint hex_value (acc : Z) (s : string) : Z :=
  match s with
  | EmptyString => acc
  | String c s' => hex_value (acc * 16 + hex_digit_value c) s'
  end.

(** Texts written one after the other. *)
Fixpoint join (parts : list string) : string :=
  match parts with
  | [] => EmptyString
  | part :: rest => part ++ join rest
  end.

(** A file for which the emitter writes a probe block. *)
Definition has_probe_block (asmFile : ASMFileInfo) : bool :=
  negb (is_nil (timestamps asmFile)) && negb (is_nil (counters asmFile)).

(** The column of [c] lies in the range owned by [asmFile]. *)
Definition in_column_range (c : CTCounterInfo) (asmFile : ASMFileInfo) : Prop :=
  colStart asmFile <= column c <= colEnd asmFile.

(** The column ranges of two files share no column. *)
Definition disjoint_ranges (a b : ASMFileInfo) : Prop :=
  colEnd a < colStart b \/ colEnd b < colStart a.

(** The largest tile-group id whose range [4N, 4N+3] fits an [int]. *)
Definition MAX_TILE_GROUP : Z := 536870911.

(** The step ends the directory scan early: the iterator raises, or a
    matching file name carries an id that [std::stoi] rejects. *)
Definition stops_scan (step : Host.DirStep) : bool :=
  match step with
  | Host.IterFault => true
  | Host.Entry e =>
      Host.is_regular_file e &&
      match regex_match false filenamePattern
                        (Host.path_filename (Host.path e)) with
      | Some m =>
          match stoi (submatch m 1) with Ok _ => false | Throw _ => true end
      | None => false
      end
  end.

(** The control file a step contributes, if any. *)
Definition found (step : Host.DirStep) : list ASMFileInfo :=
  match step with
  | Host.IterFault => []
  | Host.Entry e =>
      if Host.is_regular_file e then
        match regex_match false filenamePattern
                          (Host.path_filename (Host.path e)) with
        | Some m =>
            match stoi (submatch m 1) with
            | Ok id => [new_ASMFileInfo (Host.path e) id]
            | Throw _ => []
            end
        | None => []
        end
      else []
  end.

(** The marker directive. *)
Definition directive : string := "SAVE_TIMESTAMPS".




(** The text after the first occurrence of the directive, if there is one. *)
Fixpoint after_directive (line : string) : option string :=
  match match_lit true directive line with
  | Some rest => Some rest
  | None =>
      match line with
      | EmptyString => None
      | String _ line' => after_directive line'
      end
  end.

(** The decimal integer that follows the directive after optional white
    space, or the sentinel [-1] when there is none. *)
Definition explicit_index (after : string) : Z :=
  let digits := take_while isdigit (drop_while isspace after) in
  if empty digits then -1 else decimal_value 0 digits.

(** The markers of a file whose first line has number [n]. *)
Fixpoint markers_from (n : Z) (lines : list string) : list SaveTimestampInfo :=
  match lines with
  | [] => []
  | line :: rest =>
      match after_directive line with
      | Some after =>
          {| lineNumber := n; optionalIndex := explicit_index after |}
          :: markers_from (n + 1) rest
      | None => markers_from (n + 1) rest
      end
  end.

(** The integer written after the directive, if any, fits an [int]. *)
Definition index_fits (line : string) : Prop :=
  match after_directive line with
  | Some after => explicit_index after <= INT_MAX
  | None => True
  end.

End Spec.

(* ================================================================== *)
(** ** Sample runs *)
(* ================================================================== *)

(** Concrete headers, devices and directories the statements below are
    exercised on.  The header values are sample values: the statements
    themselves hold for every header. *)
Module Examples.
Import Cxx CTWriter.

Definition hdr0 : Header :=
  {| CORE_MODULE_BASE_OFFSET := 0x37520;
     MEMORY_MODULE_BASE_OFFSET := 0x11020;
     MEM_TILE_BASE_OFFSET := 0x91020;
     SHIM_TILE_BASE_OFFSET := 0x31020;
     CT_OUTPUT_FILENAME := "aie_profile.ct" |}.

Definition wr0 : AieProfileCTWriter :=
  AieProfileCTWriter_new {| column_shift := 25; row_shift := 20 |} 0.

Definition regular (p : string) : Host.DirStep :=
  Host.Entry {| Host.path := p; Host.is_regular_file := true |}.

Definition directory (p : string) : Host.DirStep :=
  Host.Entry {| Host.path := p; Host.is_regular_file := false |}.

Definition counter (column row counterNumber : Z) (module : string)
  : option StaticInfo.AIECounter :=
  Some {| StaticInfo.column := column;
          StaticInfo.row := row;
          StaticInfo.counterNumber := counterNumber;
          StaticInfo.module := module |}.

(** Three counters and a null entry; the counter in column 15 lies in no
    range owned by a control file of the sample directories. *)
Definition db0 : StaticInfo.Store :=
  fun _ => [counter 1 2 3 "aie"; None; counter 9 0 1 "memory_tile";
            counter 15 1 0 "unknown_type"].

Definition control0_lines : list string :=
  ["START_JOB 0"; "  save_timestamps 3 ; first"; "NOP";
   "SAVE_TIMESTAMPS"; "END_JOB"].

(** Two control files, listed out of order, next to other entries. *)
Definition fs_ok : Host.FileSystem :=
  {| Host.current_path := "/work";
     Host.listing :=
       [directory "/work/sub";
        regular "/work/sub/aie_runtime_control2.asm";
        regular "/work/notes.txt";
        regular "/work/aie_runtime_control0.asm"];
     Host.readable :=
       [("/work/aie_runtime_control0.asm", control0_lines);
        ("/work/sub/aie_runtime_control2.asm", ["Save_TimeStamps12"])];
     Host.output_openable := true |}.

Definition fs_unwritable : Host.FileSystem := Host.unwritable fs_ok.

(** The same file name in two subdirectories, listed in either order. *)
Definition same_id_files : list (string * list string) :=
  [("/work/a/aie_runtime_control1.asm", ["SAVE_TIMESTAMPS"]);
   ("/work/b/aie_runtime_control1.asm", ["NOP"; "SAVE_TIMESTAMPS 2"])].

Definition fs_same_id : Host.FileSystem :=
  {| Host.current_path := "/work";
     Host.listing :=
       [regular "/work/a/aie_runtime_control1.asm";
        regular "/work/b/aie_runtime_control1.asm"];
     Host.readable := same_id_files;
     Host.output_openable := true |}.

Definition fs_same_id_reversed : Host.FileSystem :=
  {| Host.current_path := "/work";
     Host.listing :=
       [regular "/work/b/aie_runtime_control1.asm";
        regular "/work/a/aie_runtime_control1.asm"];
     Host.readable := same_id_files;
     Host.output_openable := true |}.

Definition db_same_id : StaticInfo.Store :=
  fun _ => [counter 5 0 0 "aie"].

(** A control file next to a file whose name carries an id above
    [INT_MAX], listed in either order. *)
Definition cut_files : list (string * list string) :=
  [("/work/aie_runtime_control0.asm", control0_lines);
   ("/work/aie_runtime_control99999999999.asm", ["SAVE_TIMESTAMPS"])].

Definition fs_cut : Host.FileSystem :=
  {| Host.current_path := "/work";
     Host.listing :=
       [regular "/work/aie_runtime_control0.asm";
        regular "/work/aie_runtime_control99999999999.asm"];
     Host.readable := cut_files;
     Host.output_openable := true |}.

Definition fs_cut_reversed : Host.FileSystem :=
  {| Host.current_path := "/work";
     Host.listing :=
       [regular "/work/aie_runtime_control99999999999.asm";
        regular "/work/aie_runtime_control0.asm"];
     Host.readable := cut_files;
     Host.output_openable := true |}.

(** The root directory as working directory. *)
Definition fs_root : Host.FileSystem :=
  {| Host.current_path := "/";
     Host.listing := [regular "/aie_runtime_control0.asm"];
     Host.readable := [("/aie_runtime_control0.asm", control0_lines)];
     Host.output_openable := true |}.

(** A directive whose integer exceeds [INT_MAX]. *)
Definition fs_wide_index : Host.FileSystem :=
  {| Host.current_path := "/work";
     Host.listing := [regular "/work/aie_runtime_control0.asm"];
     Host.readable :=
       [("/work/aie_runtime_control0.asm", ["SAVE_TIMESTAMPS 99999999999"])];
     Host.output_openable := true |}.

(** A control-file name whose id exceeds [INT_MAX]. *)
Definition fs_wide_name : Host.FileSystem :=
  {| Host.current_path := "/work";
     Host.listing := [regular "/work/aie_runtime_control99999999999.asm"];
     Host.readable :=
       [("/work/aie_runtime_control99999999999.asm", ["SAVE_TIMESTAMPS"])];
     Host.output_openable := true |}.

(** Markers only in the file of columns 0-3, counters only in columns
    8-11. *)
Definition fs_split : Host.FileSystem :=
  {| Host.current_path := "/work";
     Host.listing :=
       [regular "/work/aie_runtime_control0.asm";
        regular "/work/aie_runtime_control2.asm"];
     Host.readable :=
       [("/work/aie_runtime_control0.asm", ["SAVE_TIMESTAMPS 1"]);
        ("/work/aie_runtime_control2.asm", ["NOP"])];
     Host.output_openable := true |}.

Definition fs_split_unwritable : Host.FileSystem := Host.unwritable fs_split.

Definition db_split : StaticInfo.Store :=
  fun _ => [counter 9 0 1 "memory_tile"].

End Examples.

(* ================================================================== *)
(** ** Further vocabulary *)
(* ================================================================== *)

(** Notions used by the properties of the single member functions. *)
Module SpecMore.
Import Cxx CTWriter.

(** The entries of the store that are not null, in order. *)
Fixpoint non_null {A : Type} (entries : list (option A)) : list A :=
  match entries with
  | [] => []
  | None :: rest => non_null rest
  | Some a :: rest => a :: non_null rest
  end.

(** Tile, counter slot and module of a counter, in the store and in the
    writer. *)
Definition store_fields (a : StaticInfo.AIECounter) : Z * Z * Z * string :=
  (StaticInfo.column a, StaticInfo.row a, StaticInfo.counterNumber a,
   StaticInfo.module a).

Definition info_fields (c : CTCounterInfo) : Z * Z * Z * string :=
  (column c, row c, counterNumber c, module c).

(** Lines of a list literal: a comma after every entry but the last. *)
Fixpoint comma_lines (entries : list string) : string :=
  match entries with
  | [] => EmptyString
  | [entry] => entry ++ nl
  | entry :: rest => entry ++ "," ++ nl ++ comma_lines rest
  end.

(** The elements of a list with their positions, counted from [i]. *)
Fixpoint numbered {A : Type} (i : Z) (l : list A) : list (Z * A) :=
  match l with
  | [] => []
  | x :: rest => (i, x) :: numbered (i + 1) rest
  end.

(** The script variable that holds the value of the [i]-th counter. *)
Definition ctr (i : Z) : string := "ctr_" ++ dec i.

(** The line of a probe block that reads a counter into its variable. *)
Definition read_line (ic : Z * CTCounterInfo) : string :=
  "    " ++ ctr (fst ic) ++ " = read_reg(" ++
  formatAddress (address (snd ic)) ++ ")" ++ nl.

(** The conditions under which generate() writes the CT file. *)
Definition writes_ct_file {lib : StdSort} (hdr : Header)
           (this : AieProfileCTWriter) (fs : Host.FileSystem)
           (db : StaticInfo.Store) : Prop :=
  findASMFiles fs <> []
  /\ getConfiguredCounters hdr this db <> []
  /\ (forall f, In f (findASMFiles fs) ->
        exists ts, parseSaveTimestamps fs (filename f) = Ok ts)
  /\ (exists f ts, In f (findASMFiles fs)
                   /\ parseSaveTimestamps fs (filename f) = Ok ts
                   /\ ts <> [])
  /\ Host.output_openable fs = true.

End SpecMore.

(* ================================================================== *)
(** ** Properties *)
(* ================================================================== *)

Import Cxx CTWriter Spec Examples.

(** The sample runs are evaluated with the sort by insertion. *)
#[local] Existing Instance insertion_sort.

(** *** Integer helpers *)

Lemma u64_small (z : Z) : 0 <= z < 2 ^ 64 -> u64 z = z.
Proof. intros H. unfold u64. now apply Z.mod_small. Qed.

Lemma u32_small (z : Z) : 0 <= z < 2 ^ 32 -> u32 z = z.
Proof. intros H. unfold u32. now apply Z.mod_small. Qed.

Lemma int_small (z : Z) : INT_MIN <= z <= INT_MAX -> int z = z.
Proof.
  unfold INT_MIN, INT_MAX, int. intros H.
  rewrite Z.mod_small; lia.
Qed.

Lemma lor_u64 (a b : Z) : Z.lor (u64 a) (u64 b) = u64 (Z.lor a b).
Proof.
  unfold u64.
  rewrite <- !Z.land_ones by lia.
  now rewrite Z.land_lor_distr_l.
Qed.

Lemma add64_u64_l (a b : Z) : add64 (u64 a) b = u64 (a + b).
Proof. unfold add64, u64. now rewrite Zplus_mod_idemp_l. Qed.

(** *** Module base offsets and counter addresses *)

Section Addresses.
Variable hdr : Header.

Lemma getModuleBaseOffset_default (module : string) :
  ~ recognized_module module ->
  getModuleBaseOffset hdr module = CORE_MODULE_BASE_OFFSET hdr.
Proof.
  intros Hn. unfold getModuleBaseOffset.
  destruct (String.eqb_spec module "aie"); [reflexivity|].
  destruct (String.eqb_spec module "aie_memory") as [E|_].
  { exfalso. apply Hn. unfold recognized_module. auto. }
  destruct (String.eqb_spec module "memory_tile") as [E|_].
  { exfalso. apply Hn. unfold recognized_module. auto. }
  destruct (String.eqb_spec module "interface_tile") as [E|_].
  { exfalso. apply Hn. unfold recognized_module. auto 6. }
  reflexivity.
Qed.

(** The lookup follows the table of module names. *)
Lemma getModuleBaseOffset_table (module : string) (offset : Z) :
  module_base_offset hdr module offset ->
  getModuleBaseOffset hdr module = offset.
Proof.
  intros [[-> ->]|[[-> ->]|[[-> ->]|[[-> ->]|[Hn ->]]]]];
    [reflexivity | reflexivity | reflexivity | reflexivity |].
  now apply getModuleBaseOffset_default.
Qed.

(** The address as one expression over [Z], reduced once at the end. *)
Lemma calculateCounterAddress_u64 this column row counterNumber module :
  0 <= counterNumber < 256 ->
  calculateCounterAddress hdr this column row counterNumber module =
  u64 (Z.lor (Z.shiftl column (columnShift this))
             (Z.shiftl row (rowShift this))
       + getModuleBaseOffset hdr module + counterNumber * 4).
Proof.
  intros Hc. unfold calculateCounterAddress, shl64. cbv zeta.
  rewrite lor_u64, add64_u64_l.
  rewrite (int_small (counterNumber * 4)) by (unfold INT_MIN, INT_MAX; lia).
  rewrite add64_u64_l. unfold u64.
  now rewrite Zplus_mod_idemp_r.
Qed.

Lemma collect_counters_address this store c :
  In c (collect_counters hdr this store) ->
  address c =
  calculateCounterAddress hdr this (column c) (row c) (counterNumber c) (module c).
Proof.
  induction store as [|[a|] store IH]; simpl; intros H.
  - contradiction.
  - destruct H as [<-|H]; [reflexivity | now apply IH].
  - now apply IH.
Qed.

Lemma collect_counters_Permutation this store1 store2 :
  Permutation store1 store2 ->
  Permutation (collect_counters hdr this store1) (collect_counters hdr this store2).
Proof.
  induction 1 as [| [a|] l1 l2 _ IH | [a|] [b|] l | l1 l2 l3 _ IH1 _ IH2]; simpl.
  - constructor.
  - now constructor.
  - exact IH.
  - apply perm_swap.
  - reflexivity.
  - reflexivity.
  - reflexivity.
  - now transitivity (collect_counters hdr this l2).
Qed.

End Addresses.

(** *** Strings *)

Lemma append_assoc (s t u : string) : (s ++ t) ++ u = s ++ t ++ u.
Proof. induction s as [|c s IH]; simpl; [reflexivity | now rewrite IH]. Qed.

Lemma append_empty_r (s : string) : s ++ EmptyString = s.
Proof. induction s as [|c s IH]; simpl; [reflexivity | now rewrite IH]. Qed.

Lemma length_append (s t : string) :
  String.length (s ++ t) = (String.length s + String.length t)%nat.
Proof. induction s as [|c s IH]; simpl; [reflexivity | now rewrite IH]. Qed.

Lemma substring_prefix (s t : string) :
  substring 0 (String.length s) (s ++ t) = s.
Proof.
  induction s as [|c s IH]; simpl.
  - destruct t; reflexivity.
  - now rewrite IH.
Qed.

Lemma consumed_app (s t : string) : consumed (s ++ t) t = s.
Proof.
  unfold consumed. rewrite length_append.
  replace (String.length s + String.length t - String.length t)%nat
    with (String.length s) by lia.
  apply substring_prefix.
Qed.

Lemma take_drop_while (p : ascii -> bool) (s : string) :
  take_while p s ++ drop_while p s = s.
Proof.
  induction s as [|c s IH]; simpl; [reflexivity|].
  destruct (p c); simpl; [now rewrite IH | reflexivity].
Qed.

Lemma all_chars_take_while (p : ascii -> bool) (s : string) :
  all_chars p (take_while p s) = true.
Proof.
  induction s as [|c s IH]; simpl; [reflexivity|].
  destruct (p c) eqn:E; simpl; [now rewrite E | reflexivity].
Qed.

Lemma take_while_all (p : ascii -> bool) (s : string) :
  all_chars p s = true -> take_while p s = s.
Proof.
  induction s as [|c s IH]; simpl; [reflexivity|].
  intros H. apply andb_true_iff in H as [-> H]. now rewrite IH.
Qed.


(** *** Character classes *)

Ltac each_ascii c :=
  destruct c as [[] [] [] [] [] [] [] []]; vm_compute; try reflexivity;
  try discriminate; auto.




Lemma space_not_digit (c : ascii) : isdigit c = true -> isspace c = false.
Proof. each_ascii c. Qed.

Lemma space_not_S (c : ascii) :
  isspace c = true -> Ascii.eqb (tolower "S") (tolower c) = false.
Proof. each_ascii c. Qed.

Lemma digit_value_range (c : ascii) :
  isdigit c = true -> 0 <= digit_value c <= 9.
Proof.
  unfold isdigit, digit_value. intros H.
  apply andb_true_iff in H as [H1 H2].
  apply Z.leb_le in H1, H2. lia.
Qed.

(** *** std::stoi on a run of digits *)

Lemma decimal_value_lower (s : string) (acc : Z) :
  all_chars isdigit s = true -> 0 <= acc -> acc <= decimal_value acc s.
Proof.
  revert acc. induction s as [|c s IH]; simpl; intros acc H Hacc; [lia|].
  apply andb_true_iff in H as [Hc Hs].
  pose proof (digit_value_range c Hc).
  specialize (IH (acc * 10 + digit_value c) Hs). lia.
Qed.

Lemma stoi_digits (d : string) :
  all_chars isdigit d = true -> empty d = false ->
  stoi d =
  if decimal_value 0 d <=? INT_MAX then Ok (decimal_value 0 d)
  else Throw out_of_range.
Proof.
  intros Hall Hne.
  destruct d as [|c d']; [discriminate|].
  pose proof (decimal_value_lower _ 0 Hall ltac:(lia)) as Hpos.
  simpl in Hall. apply andb_true_iff in Hall as [Hc Hd'].
  assert (Hdrop : drop_while isspace (String c d') = String c d').
  { simpl. now rewrite (space_not_digit c Hc). }
  assert (Hsign : match String c d' with
                  | String "-" s' => (true, s')
                  | String "+" s' => (false, s')
                  | _ => (false, String c d')
                  end = (false, String c d')).
  { clear - Hc. destruct c as [[] [] [] [] [] [] [] []];
      try reflexivity; vm_compute in Hc; discriminate. }
  unfold stoi. rewrite Hdrop, Hsign.
  assert (Htake : take_while isdigit (String c d') = String c d').
  { apply take_while_all. simpl. now rewrite Hc, Hd'. }
  rewrite Htake. cbn [empty].
  assert (Hmin : (INT_MIN <=? decimal_value 0 (String c d')) = true).
  { apply Z.leb_le. unfold INT_MIN. lia. }
  rewrite Hmin. reflexivity.
Qed.

(** *** The regular-expression matcher *)

(** A greedy star hands over after the longest run when the continuation
    accepts there ... *)
Lemma match_star_accepts {R : Type} (cls : ascii -> bool) (s : string)
      (k : string -> option R) (r : R) :
  k (drop_while cls s) = Some r -> match_star cls s k = Some r.
Proof.
  induction s as [|c s IH]; simpl; intros H; [exact H|].
  destruct (cls c); [|exact H].
  now rewrite (IH H).
Qed.

(** ... and giving characters back does not help a continuation that
    rejects every text starting inside the run. *)
Lemma match_star_no_backtrack {R : Type} (cls : ascii -> bool) (s : string)
      (k : string -> option R) :
  (forall c t, cls c = true -> k (String c t) = None) ->
  match_star cls s k = k (drop_while cls s).
Proof.
  intros Hk. induction s as [|c s IH]; simpl; [reflexivity|].
  destruct (cls c) eqn:E; [|reflexivity].
  rewrite IH. destruct (k (drop_while cls s)) eqn:K; [reflexivity|].
  now apply Hk.
Qed.

Lemma match_lit_sound (icase : bool) (p s rest : string) :
  match_lit icase p s = Some rest ->
  exists kw, s = kw ++ rest /\
             map_string (translate icase) kw = map_string (translate icase) p.
Proof.
  revert s. induction p as [|a p IH]; simpl; intros s H.
  - injection H as <-. now exists EmptyString.
  - destruct s as [|c s]; [discriminate|].
    destruct (Ascii.eqb_spec (translate icase a) (translate icase c)) as [E|];
      [|discriminate].
    destruct (IH _ H) as (kw & -> & Hkw).
    exists (String c kw). simpl. now rewrite Hkw, E.
Qed.

Lemma match_lit_complete (icase : bool) (p kw rest : string) :
  map_string (translate icase) kw = map_string (translate icase) p ->
  match_lit icase p (kw ++ rest) = Some rest.
Proof.
  revert kw. induction p as [|a p IH]; intros [|c kw]; simpl; intros H;
    try discriminate; [reflexivity|].
  injection H as Hc Hkw. rewrite Hc, Ascii.eqb_refl. now apply IH.
Qed.

Lemma match_directive_space (c : ascii) (t : string) :
  isspace c = true -> match_lit true directive (String c t) = None.
Proof.
  intros H. unfold directive. cbn [match_lit translate].
  now rewrite (space_not_S c H).
Qed.

(** One attempt of the marker pattern at the head of [s]. *)
Lemma timestampPattern_at (s : string) :
  run true timestampPattern s [] (fun _ caps => Some caps) =
  match match_lit true directive (drop_while isspace s) with
  | Some rest => Some [take_while isdigit (drop_while isspace rest)]
  | None => None
  end.
Proof.
  unfold timestampPattern. cbn [run].
  rewrite match_star_no_backtrack.
  - fold directive.
    destruct (match_lit true directive (drop_while isspace s)) as [rest|];
      [|reflexivity].
    apply match_star_accepts. apply match_star_accepts.
    cbn [app]. f_equal. f_equal.
    rewrite <- (take_drop_while isdigit (drop_while isspace rest)) at 1.
    apply consumed_app.
  - intros c t H. fold directive. now rewrite (match_directive_space c t H).
Qed.

(** Searching a line for the pattern finds the first occurrence of the
    directive and captures the digits behind it. *)
Lemma timestampPattern_search (line : string) :
  regex_search true timestampPattern line =
  match after_directive line with
  | Some after => Some [take_while isdigit (drop_while isspace after)]
  | None => None
  end.
Proof.
  induction line as [|c line IH].
  - reflexivity.
  - cbn [regex_search after_directive].
    rewrite timestampPattern_at.
    destruct (isspace c) eqn:E.
    + rewrite (match_directive_space c line E).
      cbn [drop_while]. rewrite E.
      destruct (match_lit true directive (drop_while isspace line)) eqn:M.
      * rewrite <- IH. destruct line as [|c' line'].
        -- discriminate.
        -- cbn [regex_search]. rewrite timestampPattern_at, M. reflexivity.
      * exact IH.
    + cbn [drop_while]. rewrite E.
      destruct (match_lit true directive (String c line)); [reflexivity|].
      exact IH.
Qed.

(** *** The directive on a line *)











(** *** Decimal notation *)

Lemma decimal_value_app (s t : string) (acc : Z) :
  decimal_value acc (s ++ t) = decimal_value (decimal_value acc s) t.
Proof. revert acc. induction s as [|c s IH]; simpl; auto. Qed.

Lemma all_chars_app (p : ascii -> bool) (s t : string) :
  all_chars p (s ++ t) = all_chars p s && all_chars p t.
Proof.
  induction s as [|c s IH]; simpl; [reflexivity|].
  now rewrite IH, andb_assoc.
Qed.

Lemma digits_of_acc (base : Z) (fuel : nat) (n : Z) (acc : string) :
  digits_of base fuel n acc = digits_of base fuel n EmptyString ++ acc.
Proof.
  revert n acc. induction fuel as [|fuel IH]; intros n acc; simpl.
  - reflexivity.
  - destruct (n / base =? 0); [reflexivity|].
    rewrite IH.
    rewrite (IH _ (String (digit_char (n mod base)) EmptyString)).
    now rewrite append_assoc.
Qed.

Lemma digits_of_step (base : Z) (fuel : nat) (n : Z) :
  digits_of base (S fuel) n EmptyString =
  if n / base =? 0 then String (digit_char (n mod base)) EmptyString
  else digits_of base fuel (n / base) EmptyString
       ++ String (digit_char (n mod base)) EmptyString.
Proof.
  simpl. destruct (n / base =? 0); [reflexivity|]. apply digits_of_acc.
Qed.

Lemma decimal_digit_char (d : Z) :
  0 <= d < 10 ->
  digit_value (digit_char d) = d /\ isdigit (digit_char d) = true.
Proof.
  intros H.
  assert (E : d = 0 \/ d = 1 \/ d = 2 \/ d = 3 \/ d = 4 \/ d = 5 \/ d = 6 \/
              d = 7 \/ d = 8 \/ d = 9) by lia.
  repeat (destruct E as [->|E]; [vm_compute; auto|]).
  subst. vm_compute. auto.
Qed.

(** Reading back the decimal output of a number gives the number. *)
Lemma decimal_value_digits (fuel : nat) (n : Z) :
  0 <= n < 10 ^ Z.of_nat fuel ->
  decimal_value 0 (digits_of 10 fuel n EmptyString) = n.
Proof.
  revert n. induction fuel as [|fuel IH]; intros n H.
  - simpl in *. lia.
  - rewrite digits_of_step.
    assert (Hd : 0 <= n mod 10 < 10) by (apply Z.mod_pos_bound; lia).
    destruct (decimal_digit_char _ Hd) as [Hv _].
    destruct (Z.eqb_spec (n / 10) 0) as [E|E].
    + simpl. rewrite Hv. rewrite (Z.div_mod n 10) at 2 by lia. lia.
    + rewrite decimal_value_app. simpl. rewrite Hv.
      rewrite IH.
      * rewrite (Z.div_mod n 10) at 3 by lia. lia.
      * rewrite Nat2Z.inj_succ, Z.pow_succ_r in H by lia.
        split; [apply Z.div_pos; lia|].
        apply Z.div_lt_upper_bound; lia.
Qed.




(** *** parseSaveTimestamps *)

Lemma submatch_1 (d : string) : submatch [d] 1 = d.
Proof. reflexivity. Qed.

(** What one line contributes, in the words of the specification. *)
Lemma parse_lines_cons (line : string) (rest : list string) (n : Z)
      (acc : list SaveTimestampInfo) :
  parse_lines (line :: rest) n acc =
  match after_directive line with
  | None => parse_lines rest (u32 (n + 1)) acc
  | Some after =>
      if explicit_index after <=? INT_MAX
      then parse_lines rest (u32 (n + 1))
             (acc ++ [{| lineNumber := u32 (n + 1);
                         optionalIndex := explicit_index after |}])%list
      else Throw out_of_range
  end.
Proof.
  cbn [parse_lines]. rewrite timestampPattern_search.
  destruct (after_directive line) as [after|]; [|reflexivity].
  rewrite submatch_1. unfold explicit_index.
  set (d := take_while isdigit (drop_while isspace after)).
  destruct (empty d) eqn:E; cbn [negb].
  - reflexivity.
  - rewrite stoi_digits by (auto; apply all_chars_take_while).
    destruct (decimal_value 0 d <=? INT_MAX); reflexivity.
Qed.

Lemma parse_lines_spec (lines : list string) (n : Z)
      (acc : list SaveTimestampInfo) :
  0 <= n -> n + Z.of_nat (List.length lines) < 2 ^ 32 ->
  Forall index_fits lines ->
  parse_lines lines n acc = Ok (acc ++ markers_from (n + 1) lines)%list.
Proof.
  revert n acc. induction lines as [|line rest IH]; intros n acc Hn Hlen Hfit.
  - simpl. now rewrite app_nil_r.
  - rewrite parse_lines_cons.
    inversion Hfit as [|? ? Hline Hrest]; subst.
    cbn [List.length] in Hlen. rewrite Nat2Z.inj_succ in Hlen.
    rewrite u32_small by lia.
    cbn [markers_from]. unfold index_fits in Hline.
    destruct (after_directive line) as [after|].
    + apply Z.leb_le in Hline. rewrite Hline.
      rewrite IH by (auto; lia).
      now rewrite <- app_assoc.
    + apply IH; auto; lia.
Qed.

(** A directive whose integer does not fit an [int] makes the loop leave
    through [std::out_of_range]. *)
Lemma parse_lines_overflow (lines : list string) (n : Z)
      (acc : list SaveTimestampInfo) :
  Exists (fun line => ~ index_fits line) lines ->
  parse_lines lines n acc = Throw out_of_range.
Proof.
  intros H. revert n acc.
  induction H as [line rest Hline | line rest _ IH]; intros n acc;
    rewrite parse_lines_cons.
  - unfold index_fits in Hline.
    destruct (after_directive line) as [after|]; [|tauto].
    destruct (Z.leb_spec (explicit_index after) INT_MAX); [tauto | reflexivity].
  - destruct (after_directive line) as [after|]; [|apply IH].
    destruct (explicit_index after <=? INT_MAX); [apply IH | reflexivity].
Qed.





(** *** Integer output *)

Lemma hex_value_app (s t : string) (acc : Z) :
  hex_value acc (s ++ t) = hex_value (hex_value acc s) t.
Proof. revert acc. induction s as [|c s IH]; simpl; auto. Qed.

Lemma hex_digit_char (d : Z) :
  0 <= d < 16 ->
  hex_digit_value (digit_char d) = d /\ is_lower_hex (digit_char d) = true.
Proof.
  intros H.
  assert (E : d = 0 \/ d = 1 \/ d = 2 \/ d = 3 \/ d = 4 \/ d = 5 \/ d = 6 \/
              d = 7 \/ d = 8 \/ d = 9 \/ d = 10 \/ d = 11 \/ d = 12 \/
              d = 13 \/ d = 14 \/ d = 15) by lia.
  repeat (destruct E as [->|E]; [vm_compute; auto|]).
  subst. vm_compute. auto.
Qed.

Lemma hex_value_digits (fuel : nat) (n : Z) :
  0 <= n < 16 ^ Z.of_nat fuel ->
  hex_value 0 (digits_of 16 fuel n EmptyString) = n.
Proof.
  revert n. induction fuel as [|fuel IH]; intros n H.
  - simpl in *. lia.
  - rewrite digits_of_step.
    assert (Hd : 0 <= n mod 16 < 16) by (apply Z.mod_pos_bound; lia).
    destruct (hex_digit_char _ Hd) as [Hv _].
    destruct (Z.eqb_spec (n / 16) 0) as [E|E].
    + simpl. rewrite Hv. rewrite (Z.div_mod n 16) at 2 by lia. lia.
    + rewrite hex_value_app. simpl. rewrite Hv.
      rewrite IH.
      * rewrite (Z.div_mod n 16) at 3 by lia. lia.
      * rewrite Nat2Z.inj_succ, Z.pow_succ_r in H by lia.
        split; [apply Z.div_pos; lia|].
        apply Z.div_lt_upper_bound; lia.
Qed.

Lemma hex_chars_digits (fuel : nat) (n : Z) :
  all_chars is_lower_hex (digits_of 16 fuel n EmptyString) = true.
Proof.
  revert n. induction fuel as [|fuel IH]; intros n.
  - reflexivity.
  - rewrite digits_of_step.
    assert (Hd : 0 <= n mod 16 < 16) by (apply Z.mod_pos_bound; lia).
    destruct (hex_digit_char _ Hd) as [_ Hc].
    destruct (n / 16 =? 0); simpl.
    + now rewrite Hc.
    + rewrite all_chars_app, IH. simpl. now rewrite Hc.
Qed.

Lemma length_digits_upper (k fuel : nat) (n : Z) :
  0 <= n < 16 ^ Z.of_nat (S k) -> (S k <= fuel)%nat ->
  (String.length (digits_of 16 fuel n EmptyString) <= S k)%nat.
Proof.
  revert fuel n. induction k as [|k IH]; intros [|fuel] n Hn Hf; try lia;
    rewrite digits_of_step.
  - change (16 ^ Z.of_nat 1) with 16 in Hn.
    rewrite (Z.div_small n 16) by lia. simpl. lia.
  - destruct (n / 16 =? 0); [simpl; lia|].
    rewrite length_append. simpl.
    assert (String.length (digits_of 16 fuel (n / 16) EmptyString) <= S k)%nat.
    { apply IH; [|lia].
      rewrite (Nat2Z.inj_succ (S k)), Z.pow_succ_r in Hn by lia.
      split; [apply Z.div_pos; lia|].
      apply Z.div_lt_upper_bound; lia. }
    lia.
Qed.

Lemma length_digits_lower (k fuel : nat) (n : Z) :
  16 ^ Z.of_nat k <= n -> (S k <= fuel)%nat ->
  (S k <= String.length (digits_of 16 fuel n EmptyString))%nat.
Proof.
  revert fuel n. induction k as [|k IH]; intros [|fuel] n Hn Hf; try lia;
    rewrite digits_of_step.
  - destruct (n / 16 =? 0); [simpl; lia|].
    rewrite length_append. simpl. lia.
  - rewrite Nat2Z.inj_succ, Z.pow_succ_r in Hn by lia.
    assert (Hq : 16 ^ Z.of_nat k <= n / 16)
      by (apply Z.div_le_lower_bound; lia).
    assert (0 < 16 ^ Z.of_nat k) by (apply Z.pow_pos_nonneg; lia).
    destruct (Z.eqb_spec (n / 16) 0); [lia|].
    rewrite length_append. simpl.
    assert (S k <= String.length (digits_of 16 fuel (n / 16) EmptyString))%nat
      by (apply IH; [assumption | lia]).
    lia.
Qed.

Lemma length_repeat_char (c : ascii) (n : nat) :
  String.length (repeat_char c n) = n.
Proof. induction n as [|n IH]; simpl; [reflexivity | now rewrite IH]. Qed.

Lemma hex_value_zeros (n : nat) : hex_value 0 (repeat_char "0" n) = 0.
Proof. induction n as [|n IH]; simpl; [reflexivity | exact IH]. Qed.

Lemma hex_chars_zeros (n : nat) :
  all_chars is_lower_hex (repeat_char "0" n) = true.
Proof. induction n as [|n IH]; simpl; [reflexivity | exact IH]. Qed.

(** The digits of a value are as many as the value needs. *)
Lemma length_digits_tight (n : Z) :
  1 <= n < 2 ^ 64 ->
  16 ^ (Z.of_nat (String.length (hex n)) - 1) <= n
  /\ n < 16 ^ Z.of_nat (String.length (hex n)).
Proof.
  intros H. unfold hex.
  remember (String.length (digits_of 16 16 n EmptyString)) as L eqn:EL.
  assert (H16 : (L <= 16)%nat).
  { rewrite EL. apply length_digits_upper; [|lia].
    change (16 ^ Z.of_nat 16) with (2 ^ 64). lia. }
  split.
  - destruct (Z_lt_le_dec n (16 ^ (Z.of_nat L - 1))) as [Hlt|Hle];
      [exfalso | exact Hle].
    destruct L as [|[|k]].
    + change (16 ^ (Z.of_nat 0 - 1)) with 0 in Hlt. lia.
    + change (16 ^ (Z.of_nat 1 - 1)) with 1 in Hlt. lia.
    + replace (Z.of_nat (S (S k)) - 1) with (Z.of_nat (S k)) in Hlt by lia.
      assert (String.length (digits_of 16 16 n EmptyString) <= S k)%nat
        by (apply length_digits_upper; lia).
      lia.
  - destruct (Z_lt_le_dec n (16 ^ Z.of_nat L)) as [Hlt|Hle];
      [exact Hlt | exfalso].
    destruct (Nat.eq_dec L 16) as [E|E].
    + rewrite E in Hle. change (16 ^ Z.of_nat 16) with (2 ^ 64) in Hle. lia.
    + assert (S L <= String.length (digits_of 16 16 n EmptyString))%nat
        by (apply length_digits_lower; [exact Hle | lia]).
      lia.
Qed.

(** C5 (as amended). The address text is [0x] followed by lowercase
    hexadecimal digits that denote the address exactly; below 2^40 there
    are exactly ten of them, padded with zeros, and from 2^40 on there are
    more than ten and as many as the value needs (no digit is cut and
    none is added in front), since the field width only pads. *)
Theorem formatAddress_digits :
  forall address : Z,
    0 <= address < 2 ^ 64 ->
    exists digits : string,
      formatAddress address = "0x" ++ digits
      /\ all_chars is_lower_hex digits = true
      /\ hex_value 0 digits = address
      /\ (address < 2 ^ 40 -> String.length digits = 10%nat)
      /\ (2 ^ 40 <= address ->
          (10 < String.length digits)%nat
          /\ 16 ^ (Z.of_nat (String.length digits) - 1) <= address
          /\ address < 16 ^ Z.of_nat (String.length digits)).
Proof.
  intros address H.
  exists (setw_fill 10 "0" (hex address)). unfold setw_fill.
  split; [reflexivity|]. split; [|split; [|split]].
  - unfold hex. now rewrite all_chars_app, hex_chars_zeros, hex_chars_digits.
  - unfold hex. rewrite hex_value_app, hex_value_zeros.
    apply hex_value_digits. change (16 ^ Z.of_nat 16) with (2 ^ 64). exact H.
  - intros Hs. unfold hex. rewrite length_append, length_repeat_char.
    assert (String.length (digits_of 16 16 address EmptyString) <= 10)%nat.
    { apply length_digits_upper; [|lia].
      change (16 ^ Z.of_nat 10) with (2 ^ 40). lia. }
    lia.
  - intros Hl.
    assert (Hwide : (11 <= String.length (hex address))%nat).
    { unfold hex. apply length_digits_lower; [|lia].
      change (16 ^ Z.of_nat 10) with (2 ^ 40). exact Hl. }
    replace (10 - String.length (hex address))%nat with 0%nat by lia.
    cbn [repeat_char append].
    split; [lia|]. apply length_digits_tight. lia.
Qed.

(** C5, the claim as stated fails: from 2^40 on the text has more than ten
    digits. *)
Lemma formatAddress_wide_counterexample :
  0 <= 2 ^ 40 < 2 ^ 64
  /\ formatAddress (2 ^ 40) = "0x" ++ "10000000000"
  /\ String.length "10000000000" = 11%nat.
Proof. repeat split; vm_compute; congruence. Qed.

(** C5 on an address of 45 bits: twelve digits, the first of which is not
    a padding zero. *)
Lemma formatAddress_digits_witness :
  exists digits : string,
    formatAddress 0x123456789abc = "0x" ++ digits
    /\ hex_value 0 digits = 0x123456789abc
    /\ (10 < String.length digits)%nat
    /\ 16 ^ (Z.of_nat (String.length digits) - 1) <= 0x123456789abc.
Proof.
  destruct (formatAddress_digits 0x123456789abc)
    as (digits & E & _ & V & _ & L).
  - lia.
  - exists digits. split; [exact E|]. split; [exact V|].
    destruct L as (L1 & L2 & _); [lia|]. split; assumption.
Defined.

(** *** std::sort with a comparison on an integer key *)

Section SortByKey.
Context {lib : StdSort} {A : Type} (key : A -> Z).

Lemma sort_Permutation (l : list A) :
  Permutation (std_sort (fun a b => key a <? key b) l) l.
Proof. apply std_sort_Permutation. Qed.

Lemma sort_ordered (l : list A) :
  StronglySorted Z.le (map key (std_sort (fun a b => key a <? key b) l)).
Proof. apply std_sort_ordered. Qed.

(** A range of one element is left as it is. *)
Lemma sort_singleton (x : A) :
  std_sort (fun a b => key a <? key b) [x] = [x].
Proof.
  apply Permutation_length_1_inv, Permutation_sym, sort_Permutation.
Qed.

Lemma sort_nil : std_sort (fun a b => key a <? key b) [] = [].
Proof. apply Permutation_nil, Permutation_sym, sort_Permutation. Qed.
End SortByKey.

Lemma ordered_NoDup_strict (ks : list Z) :
  StronglySorted Z.le ks -> NoDup ks -> StronglySorted Z.lt ks.
Proof.
  induction 1 as [|k ks Hs IH Hall]; intros Hnd; [constructor|].
  inversion Hnd as [|? ? Hnotin Hnd']; subst.
  constructor; [now apply IH|].
  rewrite Forall_forall in *. intros j Hj.
  specialize (Hall j Hj).
  assert (k <> j) by (intros ->; contradiction).
  lia.
Qed.

Lemma strict_NoDup (ks : list Z) : StronglySorted Z.lt ks -> NoDup ks.
Proof.
  induction 1 as [|k ks Hs IH Hall]; constructor; [|assumption].
  intros Hin. rewrite Forall_forall in Hall. specialize (Hall k Hin). lia.
Qed.

(** *** findASMFiles *)

Lemma dot_not_digit (c : ascii) :
  isdigit c = true -> Ascii.eqb "." c = false.
Proof. each_ascii c. Qed.

(** The file-name pattern, unfolded against the matcher. *)
Lemma filenamePattern_match (name : string) :
  regex_match false filenamePattern name =
  match match_lit false "aie_runtime_control" name with
  | Some (String c rest) =>
      if isdigit c then
        match match_lit false ".asm" (drop_while isdigit rest) with
        | Some tail =>
            if empty tail then Some [String c (take_while isdigit rest)]
            else None
        | None => None
        end
      else None
  | _ => None
  end.
Proof.
  unfold regex_match, filenamePattern. cbn [run].
  destruct (match_lit false "aie_runtime_control" name) as [[|c rest]|];
    try reflexivity.
  destruct (isdigit c) eqn:Hc; [|reflexivity].
  rewrite match_star_no_backtrack.
  - destruct (match_lit false ".asm" (drop_while isdigit rest)); [|reflexivity].
    cbn [app].
    replace (consumed (String c rest) (drop_while isdigit rest))
      with (String c (take_while isdigit rest)); [reflexivity|].
    rewrite <- (take_drop_while isdigit rest) at 2.
    symmetry. apply (consumed_app (String c (take_while isdigit rest))).
  - intros d t Hd. cbn [match_lit translate].
    now rewrite (dot_not_digit d Hd).
Qed.

Lemma filenamePattern_capture (name : string) (m : list string) :
  regex_match false filenamePattern name = Some m ->
  all_chars isdigit (submatch m 1) = true /\ empty (submatch m 1) = false.
Proof.
  rewrite filenamePattern_match.
  destruct (match_lit false "aie_runtime_control" name) as [[|c rest]|];
    try discriminate.
  destruct (isdigit c) eqn:Hc; [|discriminate].
  destruct (match_lit false ".asm" (drop_while isdigit rest)) as [tail|];
    [|discriminate].
  destruct (empty tail); [|discriminate].
  intros H. injection H as <-. rewrite submatch_1. split; [|reflexivity].
  simpl. now rewrite Hc, all_chars_take_while.
Qed.

(** Whatever holds of each freshly built record holds of all the records
    the directory scan returns. *)
Lemma scan_directory_invariant (P : ASMFileInfo -> Prop)
      (steps : list Host.DirStep) (acc : list ASMFileInfo) :
  (forall path m id,
      regex_match false filenamePattern (Host.path_filename path) = Some m ->
      stoi (submatch m 1) = Ok id ->
      P (new_ASMFileInfo path id)) ->
  Forall P acc -> Forall P (scan_directory steps acc).
Proof.
  intros HP. revert acc.
  induction steps as [|[entry|] steps IH]; intros acc Hacc; simpl; auto.
  destruct (Host.is_regular_file entry); simpl; [|now apply IH].
  destruct (regex_match false filenamePattern
              (Host.path_filename (Host.path entry))) as [m|] eqn:M;
    [|now apply IH].
  destruct (stoi (submatch m 1)) as [id|] eqn:S; [|assumption].
  apply IH. apply Forall_app. split; [assumption|].
  constructor; [|constructor]. now apply (HP _ m).
Qed.

Lemma findASMFiles_invariant {lib : StdSort} (P : ASMFileInfo -> Prop) (fs : Host.FileSystem) :
  (forall path m id,
      regex_match false filenamePattern (Host.path_filename path) = Some m ->
      stoi (submatch m 1) = Ok id ->
      P (new_ASMFileInfo path id)) ->
  Forall P (findASMFiles fs).
Proof.
  intros HP. unfold findASMFiles.
  apply Forall_forall. intros f Hf.
  apply (Permutation_in _ (sort_Permutation asmId _)) in Hf.
  revert f Hf. apply Forall_forall.
  now apply scan_directory_invariant.
Qed.

Lemma stoi_capture_range (name : string) (m : list string) (id : Z) :
  regex_match false filenamePattern name = Some m ->
  stoi (submatch m 1) = Ok id -> 0 <= id <= INT_MAX.
Proof.
  intros M S. destruct (filenamePattern_capture _ _ M) as [Hd Hne].
  rewrite (stoi_digits _ Hd Hne) in S.
  pose proof (decimal_value_lower (submatch m 1) 0 Hd (Z.le_refl 0)).
  destruct (Z.leb_spec (decimal_value 0 (submatch m 1)) INT_MAX);
    [|discriminate].
  injection S as <-. lia.
Qed.

(** Every discovered file carries an id read from its own name and the
    fields derived from it. *)
Lemma findASMFiles_fields {lib : StdSort} (fs : Host.FileSystem) :
  Forall (fun f =>
            0 <= asmId f <= INT_MAX
            /\ f = new_ASMFileInfo (filename f) (asmId f)
            /\ regex_match false filenamePattern
                 (Host.path_filename (filename f)) <> None)
         (findASMFiles fs).
Proof.
  apply findASMFiles_invariant. intros path m id M S. simpl.
  split; [exact (stoi_capture_range _ _ _ M S)|].
  split; [reflexivity | congruence].
Qed.

Lemma new_ASMFileInfo_range (path : string) (id : Z) :
  0 <= id <= MAX_TILE_GROUP ->
  ucNumber (new_ASMFileInfo path id) = 4 * id
  /\ colStart (new_ASMFileInfo path id) = 4 * id
  /\ colEnd (new_ASMFileInfo path id) = 4 * id + 3.
Proof.
  unfold MAX_TILE_GROUP. intros H.
  unfold new_ASMFileInfo. cbn [ucNumber colStart colEnd].
  rewrite (int_small (4 * id)), !(int_small (id * 4))
    by (unfold INT_MIN, INT_MAX; lia).
  rewrite int_small by (unfold INT_MIN, INT_MAX; lia).
  lia.
Qed.

(** A scan that is not cut short collects what each step contributes. *)
Lemma scan_directory_found (steps : list Host.DirStep)
      (acc : list ASMFileInfo) :
  Forall (fun step => stops_scan step = false) steps ->
  scan_directory steps acc = (acc ++ flat_map found steps)%list.
Proof.
  intros H. revert acc.
  induction H as [|[e|] steps Hstep _ IH]; intros acc.
  - simpl. now rewrite app_nil_r.
  - cbn [scan_directory flat_map found]. cbn [stops_scan] in Hstep.
    destruct (Host.is_regular_file e); cbn [negb andb] in *; [|apply IH].
    destruct (regex_match false filenamePattern
                (Host.path_filename (Host.path e))) as [m|]; [|apply IH].
    destruct (stoi (submatch m 1)) as [id|]; [|discriminate].
    rewrite IH. now rewrite <- app_assoc.
  - discriminate.
Qed.

Lemma flat_map_Permutation {A B : Type} (f : A -> list B) (l l' : list A) :
  Permutation l l' -> Permutation (flat_map f l) (flat_map f l').
Proof.
  induction 1 as [|x l l' _ IH|x y l|l l' l'' _ IH1 _ IH2]; simpl.
  - constructor.
  - now apply Permutation_app_head.
  - rewrite !app_assoc. apply Permutation_app_tail, Permutation_app_comm.
  - now transitivity (flat_map f l').
Qed.

(** Two ascending lists with the same elements are the same list. *)
Lemma ordered_Permutation_eq (ks ks' : list Z) :
  StronglySorted Z.le ks -> StronglySorted Z.le ks' ->
  Permutation ks ks' -> ks = ks'.
Proof.
  intros H. revert ks'.
  induction H as [|k ks Hs IH Hall]; intros ks' H' P.
  - now apply Permutation_nil in P.
  - destruct H' as [|k' ks' Hs' Hall'].
    + symmetry in P. now apply Permutation_nil in P.
    + assert (E : k = k').
      { rewrite Forall_forall in Hall, Hall'.
        assert (Hk : In k (k' :: ks'))
          by (apply (Permutation_in _ P); now left).
        assert (Hk' : In k' (k :: ks))
          by (apply (Permutation_in _ (Permutation_sym P)); now left).
        destruct Hk as [Hk|Hk]; [now symmetry|].
        destruct Hk' as [Hk'|Hk']; [assumption|].
        specialize (Hall _ Hk'). specialize (Hall' _ Hk). lia. }
      subst k'. f_equal. apply IH; [assumption|].
      now apply Permutation_cons_inv in P.
Qed.

(** The same holds of records in strictly ascending order of a key. *)
Lemma strict_Permutation_eq {A : Type} (key : A -> Z) (l l' : list A) :
  StronglySorted Z.lt (map key l) -> StronglySorted Z.lt (map key l') ->
  Permutation l l' -> l = l'.
Proof.
  revert l'. induction l as [|x l IH]; intros l' H H' P.
  - now apply Permutation_nil in P.
  - destruct l' as [|x' l'].
    + symmetry in P. now apply Permutation_nil in P.
    + simpl in H, H'.
      inversion H as [|? ? Hs Hall]; subst.
      inversion H' as [|? ? Hs' Hall']; subst.
      assert (E : x = x').
      { rewrite Forall_forall in Hall, Hall'.
        assert (Hx : In x (x' :: l'))
          by (apply (Permutation_in _ P); now left).
        assert (Hx' : In x' (x :: l))
          by (apply (Permutation_in _ (Permutation_sym P)); now left).
        destruct Hx as [Hx|Hx]; [now symmetry|].
        destruct Hx' as [Hx'|Hx']; [assumption|].
        specialize (Hall _ (in_map key _ _ Hx')).
        specialize (Hall' _ (in_map key _ _ Hx)). lia. }
      subst x'. f_equal. apply IH; [assumption | assumption |].
      now apply Permutation_cons_inv in P.
Qed.

Lemma Forall_Permutation {A : Type} (P : A -> Prop) (l l' : list A) :
  Permutation l l' -> Forall P l -> Forall P l'.
Proof.
  intros Hp H. apply Forall_forall. intros x Hx.
  rewrite Forall_forall in H. apply H.
  now apply (Permutation_in _ (Permutation_sym Hp)).
Qed.

(** Listing the same entries in another order yields, when the scan is
    not cut short, the same discovered files up to order. *)
Lemma findASMFiles_Permutation {lib : StdSort} (fs fs' : Host.FileSystem) :
  Forall (fun step => stops_scan step = false) (Host.listing fs) ->
  Permutation (Host.listing fs) (Host.listing fs') ->
  Permutation (findASMFiles fs) (findASMFiles fs').
Proof.
  intros Hok P. unfold findASMFiles.
  rewrite !sort_Permutation.
  rewrite !scan_directory_found;
    [| exact (Forall_Permutation _ _ _ P Hok) | exact Hok].
  cbn [app]. now apply flat_map_Permutation.
Qed.

(** In that case the sequence of ids does not depend on the order of the
    listing, and neither does the sequence of files when no id occurs
    twice. *)
Lemma findASMFiles_order {lib : StdSort} (fs fs' : Host.FileSystem) :
  Forall (fun step => stops_scan step = false) (Host.listing fs) ->
  Permutation (Host.listing fs) (Host.listing fs') ->
  map asmId (findASMFiles fs') = map asmId (findASMFiles fs)
  /\ (NoDup (map asmId (findASMFiles fs)) ->
      findASMFiles fs' = findASMFiles fs).
Proof.
  intros Hok P.
  pose proof (findASMFiles_Permutation fs fs' Hok P) as Pf.
  assert (Hsorted : forall fs0,
            StronglySorted Z.le (map asmId (findASMFiles fs0)))
    by (intros fs0; apply sort_ordered).
  assert (Eids : map asmId (findASMFiles fs') = map asmId (findASMFiles fs)).
  { apply ordered_Permutation_eq; [apply Hsorted | apply Hsorted |].
    apply Permutation_map. now symmetry. }
  split; [exact Eids|].
  intros Hnd. apply (strict_Permutation_eq asmId).
  - rewrite Eids. now apply ordered_NoDup_strict.
  - now apply ordered_NoDup_strict.
  - now symmetry.
Qed.

(** C4 (as amended). Whatever the order in which the file system lists the
    entries, the discovered files come out in ascending order of
    tile-group id; the order is strict exactly when no id occurs twice.  A
    file with id [N] up to [MAX_TILE_GROUP] owns the columns [4N .. 4N+3],
    so two discovered files with different ids own disjoint ranges, and
    two files with the same id own the same range.  When the scan is not
    cut short, listing the same entries in another order gives the same
    sequence of ids, and the same sequence of files if no id occurs
    twice. *)
Theorem findASMFiles_sorted_ranges (lib : StdSort) :
  forall fs : Host.FileSystem,
    StronglySorted Z.le (map asmId (findASMFiles fs))
    /\ (NoDup (map asmId (findASMFiles fs)) <->
        StronglySorted Z.lt (map asmId (findASMFiles fs)))
    /\ (forall f, In f (findASMFiles fs) -> asmId f <= MAX_TILE_GROUP ->
          ucNumber f = 4 * asmId f
          /\ colStart f = 4 * asmId f /\ colEnd f = 4 * asmId f + 3)
    /\ (forall a b, In a (findASMFiles fs) -> In b (findASMFiles fs) ->
          asmId a <= MAX_TILE_GROUP -> asmId b <= MAX_TILE_GROUP ->
          (asmId a <> asmId b -> disjoint_ranges a b)
          /\ (asmId a = asmId b ->
              colStart a = colStart b /\ colEnd a = colEnd b))
    /\ (forall fs' : Host.FileSystem,
          Forall (fun step => stops_scan step = false) (Host.listing fs) ->
          Permutation (Host.listing fs) (Host.listing fs') ->
          map asmId (findASMFiles fs') = map asmId (findASMFiles fs)
          /\ (NoDup (map asmId (findASMFiles fs)) ->
              findASMFiles fs' = findASMFiles fs)).
Proof.
  intros fs.
  assert (Hsorted : StronglySorted Z.le (map asmId (findASMFiles fs)))
    by apply sort_ordered.
  assert (Hrange : forall f, In f (findASMFiles fs) ->
            asmId f <= MAX_TILE_GROUP ->
            ucNumber f = 4 * asmId f
            /\ colStart f = 4 * asmId f /\ colEnd f = 4 * asmId f + 3).
  { intros f Hf Hmax.
    pose proof (findASMFiles_fields fs) as Hall.
    rewrite Forall_forall in Hall.
    destruct (Hall f Hf) as (Hid & Hnew & _).
    pose proof (new_ASMFileInfo_range (filename f) (asmId f)) as R.
    rewrite <- Hnew in R. apply R. lia. }
  split; [exact Hsorted|]. split; [|split; [exact Hrange|split]].
  - split; [now apply ordered_NoDup_strict | apply strict_NoDup].
  - intros a b Ha Hb Hma Hmb.
    destruct (Hrange a Ha Hma) as (_ & Sa & Ea).
    destruct (Hrange b Hb Hmb) as (_ & Sb & Eb).
    unfold disjoint_ranges. split; intros; lia.
  - intros fs' Hok P. now apply findASMFiles_order.
Qed.

(** C4, the claim as stated fails: the same file name in two
    subdirectories gives two discovered files with the same tile-group id,
    so the ids are not strictly ascending and the two column ranges
    coincide. *)
Lemma findASMFiles_same_id_counterexample :
  In (new_ASMFileInfo "/work/a/aie_runtime_control1.asm" 1)
     (findASMFiles fs_same_id)
  /\ In (new_ASMFileInfo "/work/b/aie_runtime_control1.asm" 1)
        (findASMFiles fs_same_id)
  /\ map asmId (findASMFiles fs_same_id) = [1; 1]
  /\ map colStart (findASMFiles fs_same_id) = [4; 4]
  /\ map colEnd (findASMFiles fs_same_id) = [7; 7].
Proof. repeat split; vm_compute; auto. Qed.

(** C4 on the sample directory: the files listed as 2, 0 come out as 0, 2
    with the ranges 0-3 and 8-11. *)
Lemma findASMFiles_sorted_ranges_witness :
  StronglySorted Z.lt (map asmId (findASMFiles fs_ok))
  /\ map asmId (findASMFiles fs_ok) = [0; 2].
Proof.
  split; [|vm_compute; reflexivity].
  destruct (findASMFiles_sorted_ranges insertion_sort fs_ok) as (_ & [Hstrict _] & _).
  apply Hstrict. vm_compute.
  constructor; [|constructor; [|constructor]]; simpl; intuition discriminate.
Defined.

(** *** filterCountersByColumn *)

Lemma filterCountersByColumn_In (allCounters : list CTCounterInfo)
      (colStart colEnd : Z) (c : CTCounterInfo) :
  In c (filterCountersByColumn allCounters colStart colEnd) <->
  In c allCounters /\ colStart <= column c <= colEnd.
Proof.
  induction allCounters as [|x rest IH]; simpl.
  - tauto.
  - destruct (Z.geb_spec (column x) colStart) as [H1|H1];
      destruct (Z.leb_spec (column x) colEnd) as [H2|H2]; simpl;
      rewrite IH; split;
      try (intros [[<-|H] Hc]; [lia | tauto]);
      try tauto.
    intros [<-|H]; [split; [now left | lia] | tauto].
Qed.

(** *** Occurrences in a text *)

Lemma occurs_in_here (needle after : string) :
  occurs_in needle (needle ++ after).
Proof. now exists EmptyString, after. Qed.

Lemma occurs_in_app_r (needle before text : string) :
  occurs_in needle text -> occurs_in needle (before ++ text).
Proof.
  intros (b & a & ->). exists (before ++ b), a. now rewrite append_assoc.
Qed.

Lemma occurs_in_app_l (needle text after : string) :
  occurs_in needle text -> occurs_in needle (text ++ after).
Proof.
  intros (b & a & ->). exists b, (a ++ after). now rewrite !append_assoc.
Qed.

(** *** The emitter's loops *)

Lemma write_probes_join (asmFiles : list ASMFileInfo) :
  write_probes asmFiles =
  join (map probe_block (filter has_probe_block asmFiles)).
Proof.
  induction asmFiles as [|f rest IH]; simpl; [reflexivity|].
  unfold has_probe_block.
  destruct (is_nil (timestamps f)); simpl; [exact IH|].
  destruct (is_nil (counters f)); simpl; [exact IH | now rewrite IH].
Qed.

Lemma write_probes_none (asmFiles : list ASMFileInfo) :
  Forall (fun f => timestamps f = [] \/ counters f = []) asmFiles ->
  write_probes asmFiles = EmptyString.
Proof.
  induction 1 as [|f rest Hf _ IH]; simpl; [reflexivity|].
  destruct Hf as [-> | ->]; simpl; [exact IH|].
  now rewrite orb_true_r.
Qed.

Lemma write_probes_occurs (asmFiles : list ASMFileInfo) (f : ASMFileInfo) :
  In f asmFiles -> timestamps f <> [] -> counters f <> [] ->
  occurs_in (probe_block f) (write_probes asmFiles).
Proof.
  intros Hin Ht Hc.
  assert (Hn : is_nil (timestamps f) || is_nil (counters f) = false).
  { destruct (timestamps f); [congruence|].
    destruct (counters f); [congruence | reflexivity]. }
  induction asmFiles as [|g rest IH]; [contradiction|].
  cbn [write_probes]. destruct Hin as [->|Hin].
  - rewrite Hn. apply occurs_in_here.
  - destruct (is_nil (timestamps g) || is_nil (counters g)); [now apply IH|].
    apply occurs_in_app_r. now apply IH.
Qed.

Lemma write_counter_metadata_occurs (cs : list CTCounterInfo) (i size : Z)
      (c : CTCounterInfo) :
  In c cs ->
  occurs_in (counter_metadata_entry c) (write_counter_metadata cs i size).
Proof.
  revert i. induction cs as [|x rest IH]; intros i Hin; [contradiction|].
  cbn [write_counter_metadata]. destruct Hin as [->|Hin].
  - apply occurs_in_here.
  - apply occurs_in_app_r, occurs_in_app_r, occurs_in_app_r. now apply IH.
Qed.

Lemma occurs_in_trans (needle part text : string) :
  occurs_in needle part -> occurs_in part text -> occurs_in needle text.
Proof.
  intros (b & a & ->) (b' & a' & ->).
  exists (b' ++ b), (a ++ a'). now rewrite !append_assoc.
Qed.

(** An entry of the metadata loop is the record of its counter behind
    eight blanks. *)
Lemma counter_metadata_entry_record (c : CTCounterInfo) :
  counter_metadata_entry c = "        " ++ metadata_record c.
Proof.
  unfold counter_metadata_entry, metadata_record, quoted.
  rewrite !append_assoc. reflexivity.
Qed.

Lemma write_counter_metadata_record (cs : list CTCounterInfo) (i size : Z)
      (c : CTCounterInfo) :
  In c cs ->
  occurs_in (metadata_record c) (write_counter_metadata cs i size).
Proof.
  intros H.
  apply (occurs_in_trans _ (counter_metadata_entry c));
    [|now apply write_counter_metadata_occurs].
  rewrite counter_metadata_entry_record.
  apply occurs_in_app_r. exists EmptyString, EmptyString.
  cbn [append]. now rewrite append_empty_r.
Qed.

Lemma ct_contents_probe (asmFiles : list ASMFileInfo)
      (allCounters : list CTCounterInfo) (f : ASMFileInfo) :
  In f asmFiles -> timestamps f <> [] -> counters f <> [] ->
  occurs_in (probe_block f) (ct_contents asmFiles allCounters).
Proof.
  intros. unfold ct_contents.
  do 4 apply occurs_in_app_r. apply occurs_in_app_l.
  now apply write_probes_occurs.
Qed.

Lemma ct_contents_nonempty (asmFiles : list ASMFileInfo)
      (allCounters : list CTCounterInfo) :
  ct_contents asmFiles allCounters <> EmptyString.
Proof. unfold ct_contents, header_comment. simpl. discriminate. Qed.

(** *** generate *)

Section Generate.
Variable hdr : Header.

Lemma is_nil_false {A : Type} (l : list A) : is_nil l = false <-> l <> [].
Proof. destruct l; simpl; split; congruence. Qed.

(** What step 3 returns when no parse throws: every file with its markers
    and the counters of its column range, and whether any file has a
    marker. *)
Lemma parse_and_filter_sound (fs : Host.FileSystem) (cs : list CTCounterInfo)
      (files files' : list ASMFileInfo) (h h' : bool) :
  parse_and_filter fs cs files h = Ok (files', h') ->
  Forall2 (fun f f' =>
             parseSaveTimestamps fs (filename f) = Ok (timestamps f')
             /\ f' = set_counters (set_timestamps f (timestamps f'))
                       (filterCountersByColumn cs (colStart f) (colEnd f)))
          files files'
  /\ h' = h || existsb (fun f' => negb (is_nil (timestamps f'))) files'.
Proof.
  revert files' h h'. induction files as [|f rest IH]; intros files' h h' H.
  - simpl in H. injection H as <- <-. split; [constructor|].
    simpl. now rewrite orb_false_r.
  - cbn [parse_and_filter] in H.
    destruct (parseSaveTimestamps fs (filename f)) as [ts|] eqn:P;
      [|discriminate].
    cbn [bind] in H.
    destruct (parse_and_filter fs cs rest _) as [[r1 r2]|] eqn:R;
      [|discriminate].
    cbn [bind fst snd] in H. injection H as <- <-.
    destruct (IH _ _ _ R) as [HF Hh]. split.
    + constructor; [|exact HF]. split; [exact P | reflexivity].
    + rewrite Hh. cbn [existsb timestamps set_counters set_timestamps].
      destruct (is_nil ts), h; reflexivity.
Qed.

Lemma parse_and_filter_complete (fs : Host.FileSystem)
      (cs : list CTCounterInfo) (files : list ASMFileInfo) (h : bool) :
  Forall (fun f => exists ts, parseSaveTimestamps fs (filename f) = Ok ts)
         files ->
  exists files' h', parse_and_filter fs cs files h = Ok (files', h').
Proof.
  intros H. revert h. induction H as [|f rest [ts P] _ IH]; intros h.
  - now exists [], h.
  - cbn [parse_and_filter]. rewrite P. cbn [bind].
    destruct (IH (if negb (is_nil (timestamps (set_timestamps f ts)))
                  then true else h)) as (r1 & r2 & ->).
    cbn [bind fst snd]. eauto.
Qed.

Lemma generate_no_files {lib : StdSort} (this : AieProfileCTWriter) (fs : Host.FileSystem)
      (db : StaticInfo.Store) :
  findASMFiles fs = [] -> generate hdr this fs db = Ok (false, None).
Proof. intros H. unfold generate. now rewrite H. Qed.

Lemma generate_no_counters {lib : StdSort} (this : AieProfileCTWriter) (fs : Host.FileSystem)
      (db : StaticInfo.Store) :
  getConfiguredCounters hdr this db = [] ->
  generate hdr this fs db = Ok (false, None).
Proof.
  intros H. unfold generate. rewrite H.
  destruct (is_nil (findASMFiles fs)); reflexivity.
Qed.

(** Past the first two gates the result is decided by step 3. *)
Lemma generate_step3 {lib : StdSort} (this : AieProfileCTWriter) (fs : Host.FileSystem)
      (db : StaticInfo.Store) :
  findASMFiles fs <> [] -> getConfiguredCounters hdr this db <> [] ->
  generate hdr this fs db =
  match parse_and_filter fs (getConfiguredCounters hdr this db)
                         (findASMFiles fs) false with
  | Ok (asmFiles, true) =>
      Ok (writeCTFile hdr fs asmFiles (getConfiguredCounters hdr this db))
  | Ok (_, false) => Ok (false, None)
  | Throw e => Throw e
  end.
Proof.
  intros Hf Hc. unfold generate.
  apply is_nil_false in Hf, Hc. rewrite Hf, Hc.
  destruct (parse_and_filter fs _ _ false) as [[asmFiles [|]]|]; reflexivity.
Qed.

Lemma Forall2_In_l {A B : Type} (R : A -> B -> Prop) (l : list A)
      (l' : list B) (a : A) :
  Forall2 R l l' -> In a l -> exists b, In b l' /\ R a b.
Proof.
  induction 1 as [|x y l l' Hxy _ IH]; intros Hin; [contradiction|].
  destruct Hin as [->|Hin].
  - exists y. split; [now left | assumption].
  - destruct (IH Hin) as (b & Hb & Hab). exists b. split; [now right | assumption].
Qed.

Lemma Forall2_In_r {A B : Type} (R : A -> B -> Prop) (l : list A)
      (l' : list B) (b : B) :
  Forall2 R l l' -> In b l' -> exists a, In a l /\ R a b.
Proof.
  induction 1 as [|x y l l' Hxy _ IH]; intros Hin; [contradiction|].
  destruct Hin as [->|Hin].
  - exists x. split; [now left | assumption].
  - destruct (IH Hin) as (a & Ha & Hab). exists a. split; [now right | assumption].
Qed.

End Generate.

(** *** The gates of generate *)

(** C3 (as amended). generate() stops at the first gate that applies: no
    control file found; files found but no counter configured; files and
    counters but no marker in any file.  Each of these returns [false] and
    writes nothing.  When every file parses and some file has a marker and
    an associated counter, the write step is reached: if the CT file opens,
    generate() returns [true] and the file written is not empty and holds
    the probe block of that control file; if it does not open, generate()
    returns [false] and nothing is written. *)
Theorem generate_gates (lib : StdSort) :
  forall (hdr : Header) (this : AieProfileCTWriter) (fs : Host.FileSystem)
         (db : StaticInfo.Store),
    (findASMFiles fs = [] -> generate hdr this fs db = Ok (false, None))
    /\ (findASMFiles fs <> [] -> getConfiguredCounters hdr this db = [] ->
        generate hdr this fs db = Ok (false, None))
    /\ (findASMFiles fs <> [] -> getConfiguredCounters hdr this db <> [] ->
        (forall f, In f (findASMFiles fs) ->
                   parseSaveTimestamps fs (filename f) = Ok []) ->
        generate hdr this fs db = Ok (false, None))
    /\ (forall f ts,
          (forall g, In g (findASMFiles fs) ->
                     exists ts', parseSaveTimestamps fs (filename g) = Ok ts') ->
          In f (findASMFiles fs) ->
          parseSaveTimestamps fs (filename f) = Ok ts -> ts <> [] ->
          filterCountersByColumn (getConfiguredCounters hdr this db)
                                 (colStart f) (colEnd f) <> [] ->
          (Host.output_openable fs = true ->
           exists text,
             generate hdr this fs db =
             Ok (true,
                 Some {| ct_path := Host.path_append (Host.current_path fs)
                                      (CT_OUTPUT_FILENAME hdr);
                         ct_text := text |})
             /\ text <> EmptyString
             /\ occurs_in
                  (probe_block
                     (set_counters (set_timestamps f ts)
                        (filterCountersByColumn
                           (getConfiguredCounters hdr this db)
                           (colStart f) (colEnd f))))
                  text)
          /\ (Host.output_openable fs = false ->
              generate hdr this fs db = Ok (false, None))).
Proof.
  intros hdr this fs db.
  split; [apply generate_no_files|].
  split; [intros _; apply generate_no_counters|].
  split.
  - intros Hf Hc Hnone. rewrite generate_step3 by assumption.
    destruct (parse_and_filter_complete fs (getConfiguredCounters hdr this db)
                (findASMFiles fs) false) as (files' & h' & E).
    { apply Forall_forall. intros f Hin. exists []. now apply Hnone. }
    rewrite E.
    destruct (parse_and_filter_sound _ _ _ _ _ _ E) as [HF ->].
    replace (existsb (fun f' => negb (is_nil (timestamps f'))) files')
      with false; [reflexivity|].
    symmetry. apply not_true_is_false. intros Hex.
    apply existsb_exists in Hex as (f' & Hin' & Hts).
    destruct (Forall2_In_r _ _ _ _ HF Hin') as (f & Hin & P & _).
    rewrite (Hnone f Hin) in P. injection P as P.
    rewrite <- P in Hts. discriminate.
  - intros f ts Hall Hin P Hts Hcs.
    assert (Hf : findASMFiles fs <> []) by (intros E; now rewrite E in Hin).
    assert (Hc : getConfiguredCounters hdr this db <> []).
    { intros E. rewrite E in Hcs. now apply Hcs. }
    rewrite generate_step3 by assumption.
    destruct (parse_and_filter_complete fs (getConfiguredCounters hdr this db)
                (findASMFiles fs) false) as (files' & h' & E).
    { apply Forall_forall. exact Hall. }
    rewrite E.
    destruct (parse_and_filter_sound _ _ _ _ _ _ E) as [HF ->].
    destruct (Forall2_In_l _ _ _ _ HF Hin) as (f' & Hin' & P' & Hf').
    assert (Ets : timestamps f' = ts) by congruence.
    rewrite Ets in Hf'.
    assert (Hex : existsb (fun f' => negb (is_nil (timestamps f'))) files'
                  = true).
    { apply existsb_exists. exists f'. split; [assumption|].
      rewrite Ets. destruct ts; [congruence | reflexivity]. }
    rewrite Hex. cbn [orb]. unfold writeCTFile.
    split; intros Hopen; rewrite Hopen; cbn [negb]; [|reflexivity].
    eexists. split; [reflexivity|].
    split; [apply ct_contents_nonempty|].
    rewrite <- Hf'. apply ct_contents_probe; [assumption| |].
    + now rewrite Ets.
    + rewrite Hf'. exact Hcs.
Qed.

(** C3, the claim as stated fails: a control file with two markers and an
    associated counter, and generate() returns [false] because the CT file
    does not open. *)
Lemma generate_gates_counterexample :
  (exists f ts,
      In f (findASMFiles fs_unwritable)
      /\ parseSaveTimestamps fs_unwritable (filename f) = Ok ts
      /\ ts <> []
      /\ filterCountersByColumn (getConfiguredCounters hdr0 wr0 db0)
                                (colStart f) (colEnd f) <> [])
  /\ generate hdr0 wr0 fs_unwritable db0 = Ok (false, None).
Proof.
  split; [|vm_compute; reflexivity].
  exists (new_ASMFileInfo "/work/aie_runtime_control0.asm" 0).
  exists [{| lineNumber := 2; optionalIndex := 3 |};
          {| lineNumber := 4; optionalIndex := -1 |}].
  split; [vm_compute; auto|].
  split; [vm_compute; reflexivity|].
  split; [discriminate | vm_compute; discriminate].
Qed.

(** The fourth gate of C3 on the sample directory: the run returns [true]
    and leaves a CT file. *)
Lemma generate_gates_witness :
  exists text,
    generate hdr0 wr0 fs_ok db0 =
    Ok (true, Some {| ct_path := "/work/aie_profile.ct"; ct_text := text |})
    /\ text <> EmptyString.
Proof.
  destruct (generate_gates insertion_sort hdr0 wr0 fs_ok db0) as (_ & _ & _ & H).
  destruct (H (new_ASMFileInfo "/work/aie_runtime_control0.asm" 0)
              [{| lineNumber := 2; optionalIndex := 3 |};
               {| lineNumber := 4; optionalIndex := -1 |}])
    as [Hopen _].
  - intros g Hg. vm_compute in Hg.
    destruct Hg as [<-|[<-|[]]]; eexists; vm_compute; reflexivity.
  - vm_compute. auto.
  - vm_compute. reflexivity.
  - discriminate.
  - vm_compute. discriminate.
  - destruct (Hopen eq_refl) as (text & E & Hne & _).
    exists text. split; assumption.
Defined.

(** *** Counter addresses *)

(** C1. For [uint8_t] coordinates and counter index and shifts below 64,
    the address is the tile word [(column << columnShift) | (row <<
    rowShift)] plus the base offset of the module plus four times the
    counter index, in 64-bit arithmetic, and exactly that sum when it fits
    64 bits.  The base offset is the constant that belongs to the module
    name: the core, memory-module, memory-tile or interface-tile constant
    for the four known names, the core constant for any other name.  Of
    the writer the member function reads the two shifts and nothing else,
    and it assigns nothing, so the value attached to a counter is the same
    wherever the counter stands in the enumeration: reordering the store
    reorders the result and changes no address. *)
Theorem calculateCounterAddress_formula :
  forall (hdr : Header) (this : AieProfileCTWriter)
         (column row counterNumber : Z) (module : string) (baseOffset : Z),
    0 <= column < 256 -> 0 <= row < 256 -> 0 <= counterNumber < 256 ->
    0 <= columnShift this < 64 -> 0 <= rowShift this < 64 ->
    module_base_offset hdr module baseOffset ->
    0 <= baseOffset < 2 ^ 64 ->
    calculateCounterAddress hdr this column row counterNumber module =
      (Z.lor (Z.shiftl column (columnShift this))
             (Z.shiftl row (rowShift this))
       + baseOffset + counterNumber * 4) mod 2 ^ 64
    /\ (Z.lor (Z.shiftl column (columnShift this))
              (Z.shiftl row (rowShift this))
        + baseOffset + counterNumber * 4 < 2 ^ 64 ->
        calculateCounterAddress hdr this column row counterNumber module =
          Z.lor (Z.shiftl column (columnShift this))
                (Z.shiftl row (rowShift this))
          + baseOffset + counterNumber * 4)
    /\ (forall this' : AieProfileCTWriter,
          columnShift this' = columnShift this ->
          rowShift this' = rowShift this ->
          calculateCounterAddress hdr this' column row counterNumber module =
          calculateCounterAddress hdr this column row counterNumber module)
    /\ (forall store c,
          In c (collect_counters hdr this store) ->
          address c =
          calculateCounterAddress hdr this (CTWriter.column c) (CTWriter.row c)
            (CTWriter.counterNumber c) (CTWriter.module c))
    /\ (forall store1 store2,
          Permutation store1 store2 ->
          Permutation (collect_counters hdr this store1)
                      (collect_counters hdr this store2)).
Proof.
  intros hdr this column row counterNumber module baseOffset
         Hcol Hrow Hctr Hcs Hrs Hoff Hbase.
  pose proof (calculateCounterAddress_u64 hdr this column row counterNumber
                module Hctr) as E.
  rewrite (getModuleBaseOffset_table hdr module baseOffset Hoff) in E.
  split; [exact E|]. split; [|split; [|split]].
  - intros Hfit. rewrite E. apply u64_small.
    assert (0 <= Z.lor (Z.shiftl column (columnShift this))
                       (Z.shiftl row (rowShift this))).
    { apply Z.lor_nonneg. split; apply Z.shiftl_nonneg; lia. }
    lia.
  - intros this' Hc' Hr'. unfold calculateCounterAddress.
    now rewrite Hc', Hr'.
  - intros store c. apply collect_counters_address.
  - intros store1 store2. apply collect_counters_Permutation.
Qed.

(** C1 on a counter of the sample device: column 9, row 0, counter 1 of a
    memory tile, shifts 25 and 20; the offset added is the one of the
    memory tiles. *)
Lemma calculateCounterAddress_formula_witness :
  calculateCounterAddress hdr0 wr0 9 0 1 "memory_tile" =
  9 * 2 ^ 25 + 0x91020 + 1 * 4.
Proof.
  destruct (calculateCounterAddress_formula hdr0 wr0 9 0 1 "memory_tile"
              0x91020)
    as (_ & E & _);
    [lia | lia | lia | change (0 <= 25 < 64); lia | change (0 <= 20 < 64); lia
    | unfold module_base_offset; auto | lia |].
  rewrite E; [reflexivity | vm_compute; reflexivity].
Defined.

(** C9. A module name outside the four known ones gets the base offset of
    the core module ["aie"], and therefore the same counter address; the
    lookup is a total function and has no error outcome. *)
Theorem getModuleBaseOffset_unrecognized :
  forall (hdr : Header) (module : string),
    ~ recognized_module module ->
    getModuleBaseOffset hdr module = getModuleBaseOffset hdr "aie"
    /\ getModuleBaseOffset hdr module = CORE_MODULE_BASE_OFFSET hdr
    /\ forall this column row counterNumber,
         calculateCounterAddress hdr this column row counterNumber module =
         calculateCounterAddress hdr this column row counterNumber "aie".
Proof.
  intros hdr module Hn.
  pose proof (getModuleBaseOffset_default hdr module Hn) as E.
  split; [rewrite E; reflexivity|]. split; [exact E|].
  intros this column row counterNumber.
  unfold calculateCounterAddress. rewrite E. reflexivity.
Qed.

(** C9 on the name used by the specification. *)
Lemma getModuleBaseOffset_unrecognized_witness :
  getModuleBaseOffset hdr0 "unknown_type" = getModuleBaseOffset hdr0 "aie".
Proof.
  refine (proj1 (getModuleBaseOffset_unrecognized hdr0 "unknown_type" _)).
  unfold recognized_module. intuition discriminate.
Defined.

(** *** Probe blocks *)

(** C10 (as amended). The test "at least one marker and at least one
    associated counter" is made per file and decides only whether that
    file gets a probe block.  When every file parses, some file has a
    marker, and no file has both markers and associated counters,
    generate() still reaches the write step: if the CT file opens it
    returns [true] and writes the header, the begin block and the end
    block with no probe block in between; if the file does not open it
    returns [false] and writes nothing. *)
Theorem generate_without_probe_blocks (lib : StdSort) :
  forall (hdr : Header) (this : AieProfileCTWriter) (fs : Host.FileSystem)
         (db : StaticInfo.Store),
    getConfiguredCounters hdr this db <> [] ->
    (forall f, In f (findASMFiles fs) ->
       exists ts,
         parseSaveTimestamps fs (filename f) = Ok ts
         /\ (ts = [] \/
             filterCountersByColumn (getConfiguredCounters hdr this db)
                                    (colStart f) (colEnd f) = [])) ->
    (exists f ts,
        In f (findASMFiles fs)
        /\ parseSaveTimestamps fs (filename f) = Ok ts /\ ts <> []) ->
    (Host.output_openable fs = true ->
     generate hdr this fs db =
     Ok (true,
         Some {| ct_path := Host.path_append (Host.current_path fs)
                              (CT_OUTPUT_FILENAME hdr);
                 ct_text :=
                   header_comment ++ begin_block_open ++
                   write_counter_metadata
                     (getConfiguredCounters hdr this db) 0
                     (Z.of_nat (List.length (getConfiguredCounters hdr this db)))
                   ++ begin_block_close ++ end_block |}))
    /\ (Host.output_openable fs = false ->
        generate hdr this fs db = Ok (false, None)).
Proof.
  intros hdr this fs db Hc Hall (f0 & ts0 & Hin0 & P0 & Hts0).
  assert (Hf : findASMFiles fs <> []) by (intros E; now rewrite E in Hin0).
  rewrite generate_step3 by assumption.
  destruct (parse_and_filter_complete fs (getConfiguredCounters hdr this db)
              (findASMFiles fs) false) as (files' & h' & E).
  { apply Forall_forall. intros f Hin.
    destruct (Hall f Hin) as (ts & P & _). now exists ts. }
  rewrite E.
  destruct (parse_and_filter_sound _ _ _ _ _ _ E) as [HF ->].
  assert (Hex : existsb (fun f' => negb (is_nil (timestamps f'))) files' = true).
  { destruct (Forall2_In_l _ _ _ _ HF Hin0) as (f' & Hin' & P' & _).
    apply existsb_exists. exists f'. split; [assumption|].
    assert (timestamps f' = ts0) as -> by congruence.
    destruct ts0; [congruence | reflexivity]. }
  rewrite Hex. cbn [orb].
  assert (Hnone : write_probes files' = EmptyString).
  { apply write_probes_none. apply Forall_forall. intros f' Hin'.
    destruct (Forall2_In_r _ _ _ _ HF Hin') as (f & Hin & P & Hf').
    destruct (Hall f Hin) as (ts & Pts & Hor).
    assert (timestamps f' = ts) by congruence.
    destruct Hor as [Hnil|Hnil]; [left; congruence|].
    right. rewrite Hf'. exact Hnil. }
  unfold writeCTFile, ct_contents. rewrite Hnone.
  split; intros Hopen; rewrite Hopen; reflexivity.
Qed.

(** C10, the claim as stated fails: markers only in the file of columns
    0-3, the only counter in column 9, and generate() returns [false]
    because the CT file does not open. *)
Lemma generate_without_probe_blocks_counterexample :
  map (fun f =>
         (parseSaveTimestamps fs_split_unwritable (filename f),
          filterCountersByColumn (getConfiguredCounters hdr0 wr0 db_split)
                                 (colStart f) (colEnd f)))
      (findASMFiles fs_split_unwritable)
  = [(Ok [{| lineNumber := 1; optionalIndex := 1 |}], []);
     (Ok [], [{| column := 9; row := 0; counterNumber := 1;
                 module := "memory_tile"; address := 0x12091024 |}])]
  /\ generate hdr0 wr0 fs_split_unwritable db_split = Ok (false, None).
Proof. repeat split; vm_compute; reflexivity. Qed.

(** C10 on the sample directory with the CT file opening: [true], and a CT
    file without probe blocks. *)
Lemma generate_without_probe_blocks_witness :
  generate hdr0 wr0 fs_split db_split =
  Ok (true,
      Some {| ct_path := "/work/aie_profile.ct";
              ct_text :=
                header_comment ++ begin_block_open ++
                write_counter_metadata
                  (getConfiguredCounters hdr0 wr0 db_split) 0 1
                ++ begin_block_close ++ end_block |}).
Proof.
  refine (proj1 (generate_without_probe_blocks insertion_sort hdr0 wr0 fs_split db_split
                   _ _ _) eq_refl).
  - vm_compute. discriminate.
  - intros f Hf. vm_compute in Hf.
    destruct Hf as [<-|[<-|[]]]; eexists; split;
      try (vm_compute; reflexivity).
    + right. vm_compute. reflexivity.
    + left. reflexivity.
  - exists (new_ASMFileInfo "/work/aie_runtime_control0.asm" 0).
    exists [{| lineNumber := 1; optionalIndex := 1 |}].
    split; [vm_compute; auto|].
    split; [vm_compute; reflexivity | discriminate].
Defined.

(** *** Association of counters to control files *)

Lemma generate_true_inv {lib : StdSort} (hdr : Header) (this : AieProfileCTWriter)
      (fs : Host.FileSystem) (db : StaticInfo.Store) (file : CTFile) :
  generate hdr this fs db = Ok (true, Some file) ->
  exists asmFiles,
    parse_and_filter fs (getConfiguredCounters hdr this db)
                     (findASMFiles fs) false = Ok (asmFiles, true)
    /\ Host.output_openable fs = true
    /\ file = {| ct_path := Host.path_append (Host.current_path fs)
                              (CT_OUTPUT_FILENAME hdr);
                 ct_text := ct_contents asmFiles
                              (getConfiguredCounters hdr this db) |}.
Proof.
  unfold generate.
  destruct (is_nil (findASMFiles fs)); [discriminate|].
  destruct (is_nil (getConfiguredCounters hdr this db)); [discriminate|].
  destruct (parse_and_filter fs _ _ false) as [[asmFiles [|]]|];
    cbn [bind negb]; try discriminate.
  unfold writeCTFile.
  destruct (Host.output_openable fs); cbn [negb]; [|discriminate].
  intros H. injection H as <-. exists asmFiles. auto.
Qed.

(** C7. A counter is associated with a control file exactly when its
    column lies in the file's range, bounds included.  In an emitted
    script the metadata list is written from all enumerated counters and
    each probe block from the counters associated with its file: the
    record of every enumerated counter (its column, row, counter index,
    module and formatted address) stands in the metadata list, and a
    counter whose column lies in no file's range has its record in the
    script and belongs to the counters of no probe block. *)
Theorem counters_associated_by_column (lib : StdSort) :
  forall (hdr : Header) (this : AieProfileCTWriter) (fs : Host.FileSystem)
         (db : StaticInfo.Store),
    (forall allCounters colStart colEnd c,
        In c (filterCountersByColumn allCounters colStart colEnd) <->
        In c allCounters /\ colStart <= column c <= colEnd)
    /\ forall file,
        generate hdr this fs db = Ok (true, Some file) ->
        exists asmFiles,
          Forall2 (fun f f' =>
                     filename f' = filename f /\ asmId f' = asmId f
                     /\ colStart f' = colStart f /\ colEnd f' = colEnd f)
                  (findASMFiles fs) asmFiles
          /\ (forall f c,
                In f asmFiles ->
                (In c (counters f) <->
                 In c (getConfiguredCounters hdr this db)
                 /\ in_column_range c f))
          /\ ct_text file =
               header_comment ++ begin_block_open ++
               write_counter_metadata
                 (getConfiguredCounters hdr this db) 0
                 (Z.of_nat (List.length (getConfiguredCounters hdr this db)))
               ++ begin_block_close ++
               join (map probe_block (filter has_probe_block asmFiles)) ++
               end_block
          /\ (forall c,
                In c (getConfiguredCounters hdr this db) ->
                occurs_in
                  (metadata_record c)
                  (write_counter_metadata
                     (getConfiguredCounters hdr this db) 0
                     (Z.of_nat
                        (List.length (getConfiguredCounters hdr this db)))))
          /\ (forall c,
                In c (getConfiguredCounters hdr this db) ->
                (forall f, In f asmFiles -> ~ in_column_range c f) ->
                occurs_in (metadata_record c) (ct_text file)
                /\ forall f, In f asmFiles -> ~ In c (counters f)).
Proof.
  intros hdr this fs db. split; [apply filterCountersByColumn_In|].
  intros file H.
  destruct (generate_true_inv _ _ _ _ _ H) as (asmFiles & E & _ & ->).
  destruct (parse_and_filter_sound _ _ _ _ _ _ E) as [HF _].
  assert (Hcounters : forall f c,
            In f asmFiles ->
            (In c (counters f) <->
             In c (getConfiguredCounters hdr this db) /\ in_column_range c f)).
  { intros f' c Hin'.
    destruct (Forall2_In_r _ _ _ _ HF Hin') as (f & _ & _ & ->).
    cbn [counters set_counters]. unfold in_column_range.
    cbn [colStart colEnd set_counters set_timestamps].
    apply filterCountersByColumn_In. }
  exists asmFiles. split; [|split; [exact Hcounters|split; [|split]]].
  - eapply Forall2_impl; [|exact HF].
    intros f f' [_ ->]. cbn. auto.
  - cbn [ct_text]. unfold ct_contents. now rewrite write_probes_join.
  - intros c Hc. now apply write_counter_metadata_record.
  - intros c Hc Hout. split.
    + cbn [ct_text]. unfold ct_contents.
      apply occurs_in_app_r, occurs_in_app_r, occurs_in_app_l.
      now apply write_counter_metadata_record.
    + intros f Hin Hcin. apply (Hout f Hin).
      now apply (Hcounters f c Hin).
Qed.

(** C7 on the sample run: the counter in column 15 is in the metadata list
    of the script and among the counters of neither control file. *)
Lemma counters_associated_by_column_witness :
  exists file,
    generate hdr0 wr0 fs_ok db0 = Ok (true, Some file)
    /\ occurs_in
         (metadata_record
            {| column := 15; row := 1; counterNumber := 0;
               module := "unknown_type"; address := 0x1e137520 |})
         (ct_text file).
Proof.
  destruct (generate hdr0 wr0 fs_ok db0) as [[[|] [file|]]|] eqn:G;
    try (vm_compute in G; discriminate).
  exists file. split; [reflexivity|].
  destruct (counters_associated_by_column insertion_sort hdr0 wr0 fs_ok db0) as [_ H].
  destruct (H file G) as (asmFiles & HF & _ & _ & _ & Hout).
  apply Hout.
  - vm_compute. auto.
  - intros f Hin.
    destruct (Forall2_In_r _ _ _ _ HF Hin) as (f0 & Hin0 & _ & _ & Hs & He).
    unfold in_column_range. rewrite Hs, He. vm_compute in Hin0.
    destruct Hin0 as [<-|[<-|[]]]; vm_compute; intuition discriminate.
Defined.

(** *** What a run depends on *)

Lemma parse_and_filter_ext (fs1 fs2 : Host.FileSystem)
      (cs : list CTCounterInfo) (files : list ASMFileInfo) (h : bool) :
  (forall f, In f files ->
     Host.ifstream (Host.readable fs1) (filename f) =
     Host.ifstream (Host.readable fs2) (filename f)) ->
  parse_and_filter fs1 cs files h = parse_and_filter fs2 cs files h.
Proof.
  revert h. induction files as [|f rest IH]; intros h Hread; [reflexivity|].
  cbn [parse_and_filter]. unfold parseSaveTimestamps.
  rewrite (Hread f (or_introl eq_refl)).
  destruct (match Host.ifstream (Host.readable fs2) (filename f) with
            | Some lines => parse_lines lines 0 []
            | None => Ok []
            end) as [ts|]; [|reflexivity].
  cbn [bind]. rewrite IH; [reflexivity|].
  intros g Hg. apply Hread. now right.
Qed.

(** generate() observes the file system through the discovered files, the
    lines of those files, the working directory and whether the CT file
    opens; it observes the store through the counters of its device. *)
Lemma generate_ext {lib : StdSort} (hdr : Header) (this : AieProfileCTWriter)
      (fs1 fs2 : Host.FileSystem) (db1 db2 : StaticInfo.Store) :
  findASMFiles fs1 = findASMFiles fs2 ->
  (forall f, In f (findASMFiles fs1) ->
     Host.ifstream (Host.readable fs1) (filename f) =
     Host.ifstream (Host.readable fs2) (filename f)) ->
  Host.current_path fs1 = Host.current_path fs2 ->
  Host.output_openable fs1 = Host.output_openable fs2 ->
  db1 (deviceId this) = db2 (deviceId this) ->
  generate hdr this fs1 db1 = generate hdr this fs2 db2.
Proof.
  intros Hfiles Hread Hcwd Hopen Hdb.
  unfold generate, getConfiguredCounters, writeCTFile.
  rewrite <- Hfiles, <- Hdb, <- Hcwd, <- Hopen.
  now rewrite (parse_and_filter_ext fs1 fs2 _ _ false Hread).
Qed.

Lemma scan_directory_skip (l1 l2 : list Host.DirStep) (e : Host.DirEntry)
      (acc : list ASMFileInfo) :
  regex_match false filenamePattern (Host.path_filename (Host.path e)) = None ->
  scan_directory (l1 ++ Host.Entry e :: l2) acc = scan_directory (l1 ++ l2) acc.
Proof.
  intros He. revert acc.
  induction l1 as [|[entry|] l1 IH]; intros acc; cbn [app scan_directory].
  - rewrite He. now destruct (Host.is_regular_file e).
  - destruct (Host.is_regular_file entry); cbn [negb]; [|apply IH].
    destruct (regex_match false filenamePattern
                (Host.path_filename (Host.path entry))); [|apply IH].
    destruct (stoi (submatch l 1)); [apply IH | reflexivity].
  - reflexivity.
Qed.

Lemma findASMFiles_with_file {lib : StdSort} (fs : Host.FileSystem) (pos : nat) (p : string)
      (lines : list string) :
  regex_match false filenamePattern (Host.path_filename p) = None ->
  findASMFiles (Host.with_file fs pos p lines) = findASMFiles fs.
Proof.
  intros Hp. unfold findASMFiles, Host.with_file. cbn [Host.listing].
  destruct (Host.listed p (Host.listing fs)); [reflexivity|].
  rewrite scan_directory_skip by exact Hp.
  now rewrite firstn_skipn.
Qed.

(** C2 (as amended). Two runs of one writer that meet the same file-system
    contents (the same working directory, the same directory entries,
    the same file contents, the same answer on opening the CT file) and
    the same counters return the same value and write the same CT file,
    byte for byte, provided the entries are presented to both runs in the
    same order, or the scan is not cut short and no tile-group id is found
    twice.  Under the same proviso the CT file a run leaves behind is no
    input of the next run: with a CT file name that is not a control-file
    name, running again in the directory that now holds the CT file gives
    the same outcome once more. *)
Theorem generate_deterministic (lib : StdSort) :
  forall (hdr : Header) (this : AieProfileCTWriter)
         (fs1 fs2 : Host.FileSystem) (db1 db2 : StaticInfo.Store),
    Host.current_path fs1 = Host.current_path fs2 ->
    Permutation (Host.listing fs1) (Host.listing fs2) ->
    (forall p, Host.ifstream (Host.readable fs1) p =
               Host.ifstream (Host.readable fs2) p) ->
    Host.output_openable fs1 = Host.output_openable fs2 ->
    db1 (deviceId this) = db2 (deviceId this) ->
    Host.listing fs1 = Host.listing fs2
    \/ (Forall (fun step => stops_scan step = false) (Host.listing fs1)
        /\ NoDup (map asmId (findASMFiles fs1))) ->
    generate hdr this fs1 db1 = generate hdr this fs2 db2
    /\ (regex_match false filenamePattern
          (Host.path_filename
             (Host.path_append (Host.current_path fs1)
                               (CT_OUTPUT_FILENAME hdr))) = None ->
        forall pos lines,
          generate hdr this
            (Host.with_file fs2 pos
               (Host.path_append (Host.current_path fs1)
                                 (CT_OUTPUT_FILENAME hdr)) lines) db2
          = generate hdr this fs1 db1).
Proof.
  intros hdr this fs1 fs2 db1 db2 Hcwd Hperm Hread Hopen Hdb Horder.
  assert (Hfiles : findASMFiles fs1 = findASMFiles fs2).
  { destruct Horder as [Hlist | [Hok Hnd]].
    - unfold findASMFiles. now rewrite Hlist.
    - destruct (findASMFiles_order fs1 fs2 Hok Hperm) as [_ Heq].
      symmetry. now apply Heq. }
  split.
  - apply generate_ext; auto.
  - intros Hct pos lines. symmetry. apply generate_ext; auto.
    + now rewrite findASMFiles_with_file.
    + intros f Hin. rewrite Hread.
      cbn [Host.readable Host.with_file Host.ifstream].
      destruct (String.eqb_spec
                  (Host.path_append (Host.current_path fs1)
                                    (CT_OUTPUT_FILENAME hdr))
                  (filename f)) as [E|]; [|reflexivity].
      exfalso.
      pose proof (findASMFiles_fields fs1) as Hall.
      rewrite Forall_forall in Hall.
      destruct (Hall f Hin) as (_ & _ & Hmatch).
      apply Hmatch. now rewrite <- E.
Qed.

(** C2, the claim as stated fails: the same two entries with the same
    contents, presented in one order and in the other.  The file name
    with the over-long id ends the scan where it stands: listed second,
    the control file in front of it is found and the CT file is written;
    listed first, nothing is found and generate() returns [false]. *)
Lemma generate_order_counterexample :
  Host.current_path fs_cut = Host.current_path fs_cut_reversed
  /\ Permutation (Host.listing fs_cut) (Host.listing fs_cut_reversed)
  /\ Host.readable fs_cut = Host.readable fs_cut_reversed
  /\ Host.output_openable fs_cut = Host.output_openable fs_cut_reversed
  /\ (exists text,
        generate hdr0 wr0 fs_cut db0 =
        Ok (true, Some {| ct_path := "/work/aie_profile.ct";
                          ct_text := text |}))
  /\ generate hdr0 wr0 fs_cut_reversed db0 = Ok (false, None).
Proof.
  split; [reflexivity|]. split; [apply perm_swap|].
  split; [reflexivity|]. split; [reflexivity|]. split.
  - eexists. vm_compute. reflexivity.
  - vm_compute. reflexivity.
Qed.

(** C2 on the sample directory, with the two control files presented in
    the opposite order and the CT file of an earlier run in place: the
    outcome is that of the first run, which returned [true]. *)
Lemma generate_deterministic_witness :
  generate hdr0 wr0
    (Host.with_file
       {| Host.current_path := "/work";
          Host.listing := rev (Host.listing fs_ok);
          Host.readable := Host.readable fs_ok;
          Host.output_openable := true |}
       1 "/work/aie_profile.ct" ["# stale"]) db0
  = generate hdr0 wr0 fs_ok db0
  /\ fst (match generate hdr0 wr0 fs_ok db0 with
          | Ok r => r
          | Throw _ => (false, None)
          end) = true.
Proof.
  split; [|vm_compute; reflexivity].
  refine (proj2 (generate_deterministic insertion_sort hdr0 wr0 fs_ok
                   {| Host.current_path := "/work";
                      Host.listing := rev (Host.listing fs_ok);
                      Host.readable := Host.readable fs_ok;
                      Host.output_openable := true |}
                   db0 db0 eq_refl (Permutation_rev _) (fun _ => eq_refl)
                   eq_refl eq_refl (or_intror (conj _ _)))
                _ 1%nat ["# stale"]).
  - repeat constructor.
  - vm_compute. constructor; [|constructor; [|constructor]];
      simpl; intuition discriminate.
  - vm_compute. reflexivity.
Defined.

(** With the sort by insertion, two control files with the same id are
    left in the order of the listing, and so are their probe blocks: the
    proviso on the ids is needed. *)
Lemma generate_same_id_order :
  Permutation (Host.listing fs_same_id) (Host.listing fs_same_id_reversed)
  /\ map filename (findASMFiles fs_same_id) =
       rev (map filename (findASMFiles fs_same_id_reversed))
  /\ generate hdr0 wr0 fs_same_id db_same_id <>
       generate hdr0 wr0 fs_same_id_reversed db_same_id.
Proof.
  split; [apply perm_swap|]. split; [vm_compute; reflexivity|].
  vm_compute. intros H. injection H as H. clear - H.
  repeat (injection H as _ H). discriminate.
Qed.

(** *** Exceptions *)

Lemma parse_lines_outcome (lines : list string) (n : Z)
      (acc : list SaveTimestampInfo) :
  (exists ts, parse_lines lines n acc = Ok ts)
  \/ parse_lines lines n acc = Throw out_of_range.
Proof.
  revert n acc. induction lines as [|line rest IH]; intros n acc.
  - left. now exists acc.
  - rewrite parse_lines_cons.
    destruct (after_directive line) as [after|]; [|apply IH].
    destruct (explicit_index after <=? INT_MAX); [apply IH | now right].
Qed.

Lemma parseSaveTimestamps_outcome (fs : Host.FileSystem) (filepath : string) :
  (exists ts, parseSaveTimestamps fs filepath = Ok ts)
  \/ parseSaveTimestamps fs filepath = Throw out_of_range.
Proof.
  unfold parseSaveTimestamps.
  destruct (Host.ifstream (Host.readable fs) filepath) as [lines|].
  - apply parse_lines_outcome.
  - left. now exists [].
Qed.

Lemma parse_and_filter_throws (fs : Host.FileSystem) (cs : list CTCounterInfo)
      (files : list ASMFileInfo) (h : bool) :
  Exists (fun f => parseSaveTimestamps fs (filename f) = Throw out_of_range)
         files ->
  parse_and_filter fs cs files h = Throw out_of_range.
Proof.
  intros H. revert h.
  induction H as [f rest Hf | f rest _ IH]; intros h; cbn [parse_and_filter].
  - now rewrite Hf.
  - destruct (parseSaveTimestamps_outcome fs (filename f)) as [[ts ->] | ->];
      [|reflexivity].
    cbn [bind]. now rewrite IH.
Qed.

(** With files and counters at hand, a directive whose integer does not
    fit an [int], in any discovered file, sends [std::out_of_range]
    through generate(). *)
Lemma generate_throws {lib : StdSort} (hdr : Header) (this : AieProfileCTWriter)
      (fs : Host.FileSystem) (db : StaticInfo.Store) (f : ASMFileInfo)
      (lines : list string) :
  getConfiguredCounters hdr this db <> [] ->
  In f (findASMFiles fs) ->
  Host.ifstream (Host.readable fs) (filename f) = Some lines ->
  Exists (fun line => ~ index_fits line) lines ->
  generate hdr this fs db = Throw out_of_range.
Proof.
  intros Hc Hin Hopen Hwide.
  assert (Hf : findASMFiles fs <> []) by (intros E; now rewrite E in Hin).
  rewrite generate_step3 by assumption.
  rewrite parse_and_filter_throws; [reflexivity|].
  apply Exists_exists. exists f. split; [assumption|].
  unfold parseSaveTimestamps. rewrite Hopen.
  now apply parse_lines_overflow.
Qed.

(** C6, the failing run: one control file holding the line
    [SAVE_TIMESTAMPS 99999999999] and a configured counter.  The
    conversion of the digits throws [std::out_of_range] in
    parseSaveTimestamps, which has no handler, and neither has
    generate(): the exception leaves generate().  The same number of
    digits in a file name is caught inside findASMFiles, and generate()
    returns [false]. *)
Theorem generate_throws_on_wide_index (lib : StdSort) :
  parseSaveTimestamps fs_wide_index "/work/aie_runtime_control0.asm"
    = Throw out_of_range
  /\ generate hdr0 wr0 fs_wide_index db0 = Throw out_of_range
  /\ findASMFiles fs_wide_name = []
  /\ generate hdr0 wr0 fs_wide_name db0 = Ok (false, None).
Proof.
  assert (Hindex : findASMFiles fs_wide_index =
                   [new_ASMFileInfo "/work/aie_runtime_control0.asm" 0]).
  { unfold findASMFiles.
    replace (scan_directory (Host.listing fs_wide_index) [])
      with [new_ASMFileInfo "/work/aie_runtime_control0.asm" 0]
      by (vm_compute; reflexivity).
    apply sort_singleton. }
  assert (Hname : findASMFiles fs_wide_name = []).
  { unfold findASMFiles.
    replace (scan_directory (Host.listing fs_wide_name) [])
      with (@nil ASMFileInfo) by (vm_compute; reflexivity).
    apply sort_nil. }
  split; [vm_compute; reflexivity|]. split.
  - apply (generate_throws hdr0 wr0 fs_wide_index db0
             (new_ASMFileInfo "/work/aie_runtime_control0.asm" 0)
             ["SAVE_TIMESTAMPS 99999999999"]).
    + vm_compute. discriminate.
    + rewrite Hindex. now left.
    + reflexivity.
    + constructor. vm_compute. intros H. now apply H.
  - split; [exact Hname|].
    apply generate_no_files. exact Hname.
Qed.

(* ================================================================== *)
(** ** Further properties, by member function *)
(* ================================================================== *)

Import SpecMore.

(** *** calculateCounterAddress: bit fields *)

Lemma land_shiftl_small (hi lo n : Z) :
  0 <= n -> 0 <= lo < 2 ^ n -> Z.land (Z.shiftl hi n) lo = 0.
Proof.
  intros Hn Hlo.
  rewrite <- (Z.mod_small lo (2 ^ n)) by lia.
  rewrite <- Z.land_ones by lia.
  rewrite (Z.land_comm lo), Z.land_assoc, Z.land_ones by lia.
  rewrite Z.shiftl_mul_pow2 by lia.
  rewrite Z.mod_mul by lia. apply Z.land_0_l.
Qed.

Lemma lor_shiftl_small (hi lo n : Z) :
  0 <= n -> 0 <= lo < 2 ^ n -> Z.lor (Z.shiftl hi n) lo = hi * 2 ^ n + lo.
Proof.
  intros Hn Hlo.
  pose proof (land_shiftl_small hi lo n Hn Hlo) as H0.
  rewrite <- (Z.lxor_lor _ _ H0), <- (Z.add_nocarry_lxor _ _ H0).
  now rewrite Z.shiftl_mul_pow2 by lia.
Qed.

Lemma pow2_split (a b : Z) :
  0 <= b <= a -> 2 ^ a = 2 ^ (a - b) * 2 ^ b.
Proof.
  intros H. rewrite <- Z.pow_add_r by lia. f_equal. lia.
Qed.

Section BitFields.
Variable hdr : Header.
Variable this : AieProfileCTWriter.
Variable module : string.
Hypothesis Hshifts : 0 <= rowShift this <= columnShift this.
Hypothesis Hwidth : columnShift this + 8 <= 64.
Hypothesis Hbase : 0 <= getModuleBaseOffset hdr module.
Hypothesis Hslots : getModuleBaseOffset hdr module + 1020 < 2 ^ rowShift this.

(** With the row field below the column field and the register offsets
    below the row field, nothing overlaps and nothing wraps. *)
Lemma address_sum (column row n : Z) :
  0 <= column < 256 -> 0 <= row < 2 ^ (columnShift this - rowShift this) ->
  0 <= n < 256 ->
  calculateCounterAddress hdr this column row n module =
  column * 2 ^ columnShift this + row * 2 ^ rowShift this
  + getModuleBaseOffset hdr module + 4 * n
  /\ 0 <= row * 2 ^ rowShift this + getModuleBaseOffset hdr module + 4 * n
       < 2 ^ columnShift this.
Proof.
  intros Hc Hr Hn.
  set (cs := columnShift this) in *. set (rs := rowShift this) in *.
  set (base := getModuleBaseOffset hdr module) in *.
  assert (Prs : 0 < 2 ^ rs) by (apply Z.pow_pos_nonneg; lia).
  assert (Pd : 0 < 2 ^ (cs - rs)) by (apply Z.pow_pos_nonneg; lia).
  assert (Ecs : 2 ^ cs = 2 ^ (cs - rs) * 2 ^ rs) by (apply pow2_split; lia).
  assert (Hrow : 0 <= row * 2 ^ rs /\ row * 2 ^ rs + 2 ^ rs <= 2 ^ cs) by nia.
  assert (Hlow : 0 <= row * 2 ^ rs + base + 4 * n < 2 ^ cs) by lia.
  split; [|exact Hlow].
  rewrite calculateCounterAddress_u64 by assumption.
  fold cs rs base.
  rewrite (Z.shiftl_mul_pow2 row rs) by lia.
  rewrite lor_shiftl_small by lia.
  rewrite u64_small; [lia|].
  assert (E64 : 2 ^ 64 = 2 ^ (64 - (cs + 8)) * (256 * 2 ^ cs)).
  { change 256 with (2 ^ 8). rewrite <- !Z.pow_add_r by lia. f_equal. lia. }
  assert (0 < 2 ^ (64 - (cs + 8))) by (apply Z.pow_pos_nonneg; lia).
  assert (0 < 2 ^ cs) by lia.
  nia.
Qed.

End BitFields.

(** X1. calculateCounterAddress packs disjoint fields: when the rows fit
    between the two shifts and every register offset of the module lies
    below the row field, the address is the plain sum
    [column * 2^columnShift + row * 2^rowShift + base + 4 * counter], and
    two counters of the module have the same address only if they are the
    same counter of the same tile. *)
Theorem calculateCounterAddress_fields :
  forall (hdr : Header) (this : AieProfileCTWriter) (module : string),
    0 <= rowShift this <= columnShift this ->
    columnShift this + 8 <= 64 ->
    0 <= getModuleBaseOffset hdr module ->
    getModuleBaseOffset hdr module + 1020 < 2 ^ rowShift this ->
    (forall column row n,
        0 <= column < 256 ->
        0 <= row < 2 ^ (columnShift this - rowShift this) ->
        0 <= n < 256 ->
        calculateCounterAddress hdr this column row n module =
        column * 2 ^ columnShift this + row * 2 ^ rowShift this
        + getModuleBaseOffset hdr module + 4 * n)
    /\ (forall column row n column' row' n',
          0 <= column < 256 -> 0 <= column' < 256 ->
          0 <= row < 2 ^ (columnShift this - rowShift this) ->
          0 <= row' < 2 ^ (columnShift this - rowShift this) ->
          0 <= n < 256 -> 0 <= n' < 256 ->
          calculateCounterAddress hdr this column row n module =
          calculateCounterAddress hdr this column' row' n' module ->
          column = column' /\ row = row' /\ n = n').
Proof.
  intros hdr this module Hshifts Hwidth Hbase Hslots.
  split.
  - intros column row n Hc Hr Hn.
    exact (proj1 (address_sum hdr this module Hshifts Hwidth Hbase Hslots
                    column row n Hc Hr Hn)).
  - intros column row n column' row' n' Hc Hc' Hr Hr' Hn Hn' E.
    destruct (address_sum hdr this module Hshifts Hwidth Hbase Hslots
                column row n Hc Hr Hn) as [E1 L1].
    destruct (address_sum hdr this module Hshifts Hwidth Hbase Hslots
                column' row' n' Hc' Hr' Hn') as [E2 L2].
    rewrite E1, E2 in E.
    set (cs := columnShift this) in *. set (rs := rowShift this) in *.
    set (base := getModuleBaseOffset hdr module) in *.
    destruct (Z.div_mod_unique (2 ^ cs) column column'
                (row * 2 ^ rs + base + 4 * n)
                (row' * 2 ^ rs + base + 4 * n')) as [Ecol Elow];
      [left; exact L1 | left; exact L2 | lia |].
    destruct (Z.div_mod_unique (2 ^ rs) row row'
                (base + 4 * n) (base + 4 * n')) as [Erow Eoff];
      [left; lia | left; lia | lia |].
    repeat split; [assumption | assumption | lia].
Qed.

(** X1 on the sample device (shifts 25 and 20, core module): column 1,
    row 2, counter 3. *)
Lemma calculateCounterAddress_fields_witness :
  calculateCounterAddress hdr0 wr0 1 2 3 "aie" =
  1 * 2 ^ 25 + 2 * 2 ^ 20 + 0x37520 + 4 * 3.
Proof.
  refine (proj1 (calculateCounterAddress_fields hdr0 wr0 "aie" _ _ _ _)
                1 2 3 _ _ _); vm_compute; intuition discriminate.
Defined.

(** *** getConfiguredCounters: the enumeration *)

Lemma collect_counters_fields (hdr : Header) (this : AieProfileCTWriter)
      (store : list (option StaticInfo.AIECounter)) :
  map info_fields (collect_counters hdr this store) =
  map store_fields (non_null store).
Proof.
  induction store as [|[a|] store IH]; simpl; [reflexivity | | exact IH].
  now rewrite IH.
Qed.

Lemma calculateCounterAddress_range (hdr : Header)
      (this : AieProfileCTWriter) (column row n : Z) (module : string) :
  0 <= calculateCounterAddress hdr this column row n module < 2 ^ 64.
Proof.
  unfold calculateCounterAddress, add64, u64. apply Z.mod_pos_bound. lia.
Qed.

Lemma non_null_length {A : Type} (entries : list (option A)) :
  (List.length (non_null entries) <= List.length entries)%nat.
Proof.
  induction entries as [|[a|] entries IH]; simpl; lia.
Qed.

(** X2. getConfiguredCounters returns one record per non-null entry of
    the store, in the order of the store, with the tile, counter slot and
    module copied unchanged and an address that is a 64-bit value; null
    entries are skipped, so the result is empty exactly when every entry
    is null, and it never has more records than the store has entries. *)
Theorem getConfiguredCounters_entries :
  forall (hdr : Header) (this : AieProfileCTWriter) (db : StaticInfo.Store),
    map info_fields (getConfiguredCounters hdr this db) =
      map store_fields (non_null (db (deviceId this)))
    /\ Forall (fun c => 0 <= address c < 2 ^ 64)
              (getConfiguredCounters hdr this db)
    /\ (List.length (getConfiguredCounters hdr this db)
        <= List.length (db (deviceId this)))%nat
    /\ (getConfiguredCounters hdr this db = [] <->
        Forall (fun entry => entry = None) (db (deviceId this))).
Proof.
  intros hdr this db. unfold getConfiguredCounters.
  set (store := db (deviceId this)).
  split; [apply collect_counters_fields|]. split; [|split].
  - apply Forall_forall. intros c Hc.
    rewrite (collect_counters_address hdr this store c Hc).
    apply calculateCounterAddress_range.
  - rewrite <- (length_map info_fields), collect_counters_fields, length_map.
    apply non_null_length.
  - induction store as [|[a|] store IH]; simpl.
    + split; [constructor | reflexivity].
    + split; [discriminate|]. intros H. inversion H. discriminate.
    + rewrite IH. split; intros H; [now constructor | now inversion H].
Qed.

(** *** filterCountersByColumn: composition *)

Lemma filterCountersByColumn_compose (cs : list CTCounterInfo)
      (a b a' b' : Z) :
  filterCountersByColumn (filterCountersByColumn cs a b) a' b' =
  filterCountersByColumn cs (Z.max a a') (Z.min b b').
Proof.
  induction cs as [|c cs IH]; simpl; [reflexivity|].
  destruct (Z.geb_spec (column c) a), (Z.leb_spec (column c) b);
    destruct (Z.geb_spec (column c) (Z.max a a')),
             (Z.leb_spec (column c) (Z.min b b')); simpl;
    try lia; try exact IH;
    destruct (Z.geb_spec (column c) a'), (Z.leb_spec (column c) b'); simpl;
    try lia; try exact IH; now rewrite IH.
Qed.

Lemma filterCountersByColumn_empty_range (cs : list CTCounterInfo) (a b : Z) :
  b < a -> filterCountersByColumn cs a b = [].
Proof.
  intros H. induction cs as [|c cs IH]; simpl; [reflexivity|].
  destruct (Z.geb_spec (column c) a), (Z.leb_spec (column c) b); simpl;
    try lia; exact IH.
Qed.

(** X3. filterCountersByColumn composes by intersecting the ranges:
    filtering the result again by a second range is filtering once by the
    overlap of the two.  So filtering twice by the same range changes
    nothing, an inverted range and two ranges without a common column
    give the empty list, and a result is never longer than the input. *)
Theorem filterCountersByColumn_intersection :
  forall (cs : list CTCounterInfo) (a b : Z),
    (forall a' b',
        filterCountersByColumn (filterCountersByColumn cs a b) a' b' =
        filterCountersByColumn cs (Z.max a a') (Z.min b b'))
    /\ filterCountersByColumn (filterCountersByColumn cs a b) a b =
       filterCountersByColumn cs a b
    /\ (b < a -> filterCountersByColumn cs a b = [])
    /\ (forall a' b', b < a' \/ b' < a ->
          filterCountersByColumn (filterCountersByColumn cs a b) a' b' = [])
    /\ (List.length (filterCountersByColumn cs a b) <= List.length cs)%nat.
Proof.
  intros cs a b.
  split; [intros; apply filterCountersByColumn_compose|].
  split; [|split; [|split]].
  - rewrite filterCountersByColumn_compose.
    now rewrite Z.max_id, Z.min_id.
  - apply filterCountersByColumn_empty_range.
  - intros a' b' H. rewrite filterCountersByColumn_compose.
    apply filterCountersByColumn_empty_range. lia.
  - induction cs as [|c cs IH]; simpl; [lia|].
    destruct ((column c >=? a) && (column c <=? b)); simpl; lia.
Qed.

(** X4. Of two discovered control files with different tile-group ids (up
    to [MAX_TILE_GROUP]) at most one is handed a given counter: the lists
    filterCountersByColumn builds for their column ranges have no counter
    in common. *)
Theorem counter_in_one_control_file (lib : StdSort) :
  forall (fs : Host.FileSystem) (cs : list CTCounterInfo)
         (f g : ASMFileInfo) (c : CTCounterInfo),
    In f (findASMFiles fs) -> In g (findASMFiles fs) ->
    asmId f <> asmId g ->
    asmId f <= MAX_TILE_GROUP -> asmId g <= MAX_TILE_GROUP ->
    In c (filterCountersByColumn cs (colStart f) (colEnd f)) ->
    ~ In c (filterCountersByColumn cs (colStart g) (colEnd g)).
Proof.
  intros fs cs f g c Hf Hg Hne Hmf Hmg Hcf Hcg.
  apply filterCountersByColumn_In in Hcf as [_ Rf].
  apply filterCountersByColumn_In in Hcg as [_ Rg].
  pose proof (findASMFiles_fields fs) as Hall.
  rewrite Forall_forall in Hall.
  destruct (Hall f Hf) as (If & Nf & _).
  destruct (Hall g Hg) as (Ig & Ng & _).
  pose proof (new_ASMFileInfo_range (filename f) (asmId f)) as Pf.
  pose proof (new_ASMFileInfo_range (filename g) (asmId g)) as Pg.
  rewrite <- Nf in Pf. rewrite <- Ng in Pg.
  destruct Pf as (_ & Sf & Ef); [lia|].
  destruct Pg as (_ & Sg & Eg); [lia|].
  lia.
Qed.

(** X4 on the sample directory: the counter of column 1 belongs to the
    file of tile group 0 and not to the file of tile group 2. *)
Lemma counter_in_one_control_file_witness :
  In {| column := 1; row := 2; counterNumber := 3; module := "aie";
        address := 0x223752c |}
     (filterCountersByColumn (getConfiguredCounters hdr0 wr0 db0) 0 3)
  /\ (In {| column := 1; row := 2; counterNumber := 3; module := "aie";
            address := 0x223752c |}
         (filterCountersByColumn (getConfiguredCounters hdr0 wr0 db0) 8 11)
      -> False).
Proof.
  split; [vm_compute; auto|].
  refine (counter_in_one_control_file insertion_sort fs_ok
            (getConfiguredCounters hdr0 wr0 db0)
            (new_ASMFileInfo "/work/aie_runtime_control0.asm" 0)
            (new_ASMFileInfo "/work/sub/aie_runtime_control2.asm" 2)
            _ _ _ _ _ _ _);
    vm_compute; intuition discriminate.
Defined.

(** *** parseSaveTimestamps: outcomes and the shape of the result *)

Lemma index_fits_dec (line : string) : {index_fits line} + {~ index_fits line}.
Proof.
  unfold index_fits. destruct (after_directive line) as [after|].
  - destruct (Z_le_gt_dec (explicit_index after) INT_MAX) as [H|H];
      [now left | right; lia].
  - now left.
Qed.

Lemma parse_lines_throw_inv (lines : list string) (n : Z)
      (acc : list SaveTimestampInfo) (e : exn) :
  parse_lines lines n acc = Throw e ->
  e = out_of_range /\ Exists (fun line => ~ index_fits line) lines.
Proof.
  revert n acc. induction lines as [|line rest IH]; intros n acc H.
  - discriminate.
  - rewrite parse_lines_cons in H.
    destruct (after_directive line) as [after|] eqn:A.
    + destruct (Z.leb_spec (explicit_index after) INT_MAX) as [Hle|Hgt].
      * destruct (IH _ _ H) as [-> Hex]. split; [reflexivity|].
        now apply Exists_cons_tl.
      * injection H as <-. split; [reflexivity|].
        apply Exists_cons_hd. unfold index_fits. rewrite A. lia.
    + destruct (IH _ _ H) as [-> Hex]. split; [reflexivity|].
      now apply Exists_cons_tl.
Qed.

Lemma parse_lines_ok_iff (lines : list string) (n : Z)
      (acc : list SaveTimestampInfo) :
  (exists ts, parse_lines lines n acc = Ok ts) <-> Forall index_fits lines.
Proof.
  split.
  - intros [ts H].
    destruct (Forall_Exists_dec index_fits index_fits_dec lines) as [F|E];
      [exact F|].
    rewrite (parse_lines_overflow lines n acc E) in H. discriminate.
  - intros F. destruct (parse_lines_outcome lines n acc) as [H|H];
      [exact H|].
    destruct (parse_lines_throw_inv _ _ _ _ H) as [_ E].
    exfalso. apply Exists_exists in E as (line & Hin & Hnot).
    rewrite Forall_forall in F. exact (Hnot (F line Hin)).
Qed.

(** X5. parseSaveTimestamps has three outcomes.  A file that does not
    open gives the empty list.  A file that opens gives a list exactly
    when the integer behind every directive fits an [int]; otherwise the
    function is left through [std::out_of_range], and through no other
    exception. *)
Theorem parseSaveTimestamps_outcomes :
  forall (fs : Host.FileSystem) (filepath : string),
    (Host.ifstream (Host.readable fs) filepath = None ->
     parseSaveTimestamps fs filepath = Ok [])
    /\ (forall lines,
          Host.ifstream (Host.readable fs) filepath = Some lines ->
          ((exists ts, parseSaveTimestamps fs filepath = Ok ts) <->
           Forall index_fits lines)
          /\ (forall e,
                parseSaveTimestamps fs filepath = Throw e <->
                e = out_of_range
                /\ Exists (fun line => ~ index_fits line) lines)).
Proof.
  intros fs filepath. unfold parseSaveTimestamps. split.
  - intros ->. reflexivity.
  - intros lines ->. split; [apply parse_lines_ok_iff|].
    intros e. split.
    + apply parse_lines_throw_inv.
    + intros [-> E]. now apply parse_lines_overflow.
Qed.

Lemma explicit_index_lower (after : string) : -1 <= explicit_index after.
Proof.
  unfold explicit_index.
  set (d := take_while isdigit (drop_while isspace after)).
  destruct (empty d); [lia|].
  pose proof (decimal_value_lower d 0 (all_chars_take_while _ _)
                (Z.le_refl 0)).
  lia.
Qed.

Lemma markers_from_shape (lines : list string) (n : Z) :
  StronglySorted Z.lt (map lineNumber (markers_from n lines))
  /\ Forall (fun t => n <= lineNumber t < n + Z.of_nat (List.length lines)
                      /\ -1 <= optionalIndex t)
            (markers_from n lines)
  /\ (List.length (markers_from n lines) <= List.length lines)%nat.
Proof.
  revert n. induction lines as [|line rest IH]; intros n.
  - simpl. repeat split; constructor.
  - destruct (IH (n + 1)) as (Hs & Hall & Hlen).
    assert (Hall' : Forall (fun t =>
                n <= lineNumber t < n + Z.of_nat (List.length (line :: rest))
                /\ -1 <= optionalIndex t) (markers_from (n + 1) rest)).
    { eapply Forall_impl; [|exact Hall]. cbn beta. intros t.
      cbn [List.length]. rewrite Nat2Z.inj_succ. lia. }
    cbn [markers_from]. destruct (after_directive line) as [after|].
    + split; [|split].
      * cbn [map]. constructor; [exact Hs|].
        apply Forall_forall. intros k Hk.
        apply in_map_iff in Hk as (t & <- & Ht).
        rewrite Forall_forall in Hall. specialize (Hall t Ht).
        cbn [lineNumber]. lia.
      * constructor; [|exact Hall'].
        cbn [lineNumber optionalIndex List.length].
        rewrite Nat2Z.inj_succ.
        pose proof (explicit_index_lower after). lia.
      * cbn [List.length]. lia.
    + split; [exact Hs|]. split; [exact Hall'|]. cbn [List.length]. lia.
Qed.

Lemma markers_from_fit (lines : list string) (n : Z) :
  Forall index_fits lines ->
  Forall (fun t => optionalIndex t <= INT_MAX) (markers_from n lines).
Proof.
  intros H. revert n. induction H as [|line rest Hline _ IH]; intros n.
  - constructor.
  - cbn [markers_from]. unfold index_fits in Hline.
    destruct (after_directive line) as [after|]; [|apply IH].
    constructor; [exact Hline | apply IH].
Qed.

(** X6. The markers parseSaveTimestamps returns for a file of fewer than
    2^32 lines are in strictly ascending line order (at most one marker
    per line), their line numbers lie between 1 and the number of lines,
    their index lies between the sentinel [-1] and [INT_MAX], and there
    are at most as many markers as lines. *)
Theorem parseSaveTimestamps_shape :
  forall (fs : Host.FileSystem) (filepath : string) (lines : list string)
         (ts : list SaveTimestampInfo),
    Host.ifstream (Host.readable fs) filepath = Some lines ->
    Z.of_nat (List.length lines) < 2 ^ 32 ->
    parseSaveTimestamps fs filepath = Ok ts ->
    StronglySorted Z.lt (map lineNumber ts)
    /\ Forall (fun t => 1 <= lineNumber t <= Z.of_nat (List.length lines)
                        /\ -1 <= optionalIndex t <= INT_MAX) ts
    /\ (List.length ts <= List.length lines)%nat.
Proof.
  intros fs filepath lines ts Hopen Hlen H.
  unfold parseSaveTimestamps in H. rewrite Hopen in H.
  assert (F : Forall index_fits lines)
    by (apply (parse_lines_ok_iff lines 0 []); now exists ts).
  rewrite parse_lines_spec in H by (auto; lia).
  injection H as <-. cbn [app Z.add].
  destruct (markers_from_shape lines 1) as (Hs & Hall & Hl).
  pose proof (markers_from_fit lines 1 F) as Hfit.
  split; [exact Hs|]. split; [|exact Hl].
  rewrite Forall_forall in *. intros t Ht.
  specialize (Hall t Ht). specialize (Hfit t Ht). cbn beta in *. lia.
Qed.

(** X6 on the first control file of the sample directory. *)
Lemma parseSaveTimestamps_shape_witness :
  StronglySorted Z.lt
    (map lineNumber [{| lineNumber := 2; optionalIndex := 3 |};
                     {| lineNumber := 4; optionalIndex := -1 |}]).
Proof.
  refine (proj1 (parseSaveTimestamps_shape
                   fs_ok "/work/aie_runtime_control0.asm" control0_lines
                   _ _ _ _)); vm_compute; reflexivity.
Defined.

(** *** findASMFiles: which files are discovered *)

Lemma map_string_translate_false (s : string) :
  map_string (translate false) s = s.
Proof. induction s as [|c s IH]; simpl; [reflexivity | now rewrite IH]. Qed.

Lemma match_lit_exact (p s rest : string) :
  match_lit false p s = Some rest <-> s = p ++ rest.
Proof.
  split.
  - intros H. destruct (match_lit_sound false _ _ _ H) as (kw & -> & E).
    rewrite !map_string_translate_false in E. now subst.
  - intros ->. now apply match_lit_complete.
Qed.

Lemma drop_while_digits_then (d rest : string) (c : ascii) :
  all_chars isdigit d = true -> isdigit c = false ->
  drop_while isdigit (d ++ String c rest) = String c rest
  /\ take_while isdigit (d ++ String c rest) = d.
Proof.
  intros Hd Hc. induction d as [|x d IH]; simpl in *.
  - now rewrite Hc.
  - apply andb_true_iff in Hd as [-> Hd]. destruct (IH Hd) as [-> ->]. auto.
Qed.

(** The names the file-name pattern accepts. *)
Lemma filenamePattern_names (name : string) (m : list string) :
  regex_match false filenamePattern name = Some m <->
  exists digits,
    name = "aie_runtime_control" ++ digits ++ ".asm"
    /\ all_chars isdigit digits = true /\ empty digits = false
    /\ m = [digits].
Proof.
  rewrite filenamePattern_match. split.
  - destruct (match_lit false "aie_runtime_control" name) as [[|c rest]|] eqn:P;
      try discriminate.
    destruct (isdigit c) eqn:Hc; [|discriminate].
    destruct (match_lit false ".asm" (drop_while isdigit rest)) as [tail|] eqn:S;
      [|discriminate].
    destruct tail; [|discriminate]. intros H. injection H as <-.
    apply match_lit_exact in P. apply match_lit_exact in S.
    exists (String c (take_while isdigit rest)).
    split; [|split; [|split]]; try reflexivity.
    + rewrite P. cbn [append]. do 2 f_equal.
      rewrite <- (take_drop_while isdigit rest) at 1. now rewrite S.
    + simpl. now rewrite Hc, all_chars_take_while.
  - intros (digits & -> & Hd & Hne & ->).
    destruct digits as [|c d]; [discriminate|].
    simpl in Hd. apply andb_true_iff in Hd as [Hc Hd].
    rewrite (proj2 (match_lit_exact "aie_runtime_control" _
                      (String c d ++ ".asm")) eq_refl).
    cbn [append]. rewrite Hc.
    destruct (drop_while_digits_then d "asm" "." Hd eq_refl) as [-> ->].
    reflexivity.
Qed.

Lemma scan_directory_origin (steps : list Host.DirStep)
      (acc : list ASMFileInfo) (f : ASMFileInfo) :
  In f (scan_directory steps acc) ->
  In f acc
  \/ exists e m id,
       In (Host.Entry e) steps /\ Host.is_regular_file e = true
       /\ regex_match false filenamePattern
            (Host.path_filename (Host.path e)) = Some m
       /\ stoi (submatch m 1) = Ok id
       /\ f = new_ASMFileInfo (Host.path e) id.
Proof.
  revert acc. induction steps as [|[e|] steps IH]; intros acc H;
    cbn [scan_directory] in H; auto.
  assert (Hrest : forall acc',
            In f (scan_directory steps acc') ->
            (In f acc' -> In f acc
                          \/ exists e0 m id,
                               In (Host.Entry e0) (Host.Entry e :: steps)
                               /\ Host.is_regular_file e0 = true
                               /\ regex_match false filenamePattern
                                    (Host.path_filename (Host.path e0)) = Some m
                               /\ stoi (submatch m 1) = Ok id
                               /\ f = new_ASMFileInfo (Host.path e0) id) ->
            In f acc
            \/ exists e0 m id,
                 In (Host.Entry e0) (Host.Entry e :: steps)
                 /\ Host.is_regular_file e0 = true
                 /\ regex_match false filenamePattern
                      (Host.path_filename (Host.path e0)) = Some m
                 /\ stoi (submatch m 1) = Ok id
                 /\ f = new_ASMFileInfo (Host.path e0) id).
  { intros acc' Hin Hacc. destruct (IH _ Hin) as [Ha|(e0 & m & id & Hi & R)].
    - now apply Hacc.
    - right. exists e0, m, id. split; [now right | exact R]. }
  destruct (Host.is_regular_file e) eqn:Hreg; cbn [negb] in H;
    [|apply (Hrest _ H); auto].
  destruct (regex_match false filenamePattern
              (Host.path_filename (Host.path e))) as [m|] eqn:M;
    [|apply (Hrest _ H); auto].
  destruct (stoi (submatch m 1)) as [id|] eqn:S; [|auto].
  apply (Hrest _ H). intros Hin. apply in_app_or in Hin as [Hin|[<-|[]]].
  - now left.
  - right. exists e, m, id. split; [now left | auto].
Qed.

(** X7. Every file findASMFiles returns comes from a regular file of the
    listing whose base name is exactly [aie_runtime_control], a non-empty
    run of decimal digits and [.asm] (lower case, nothing before or
    after); its id is the number the digits denote, lies between 0 and
    [INT_MAX], and its marker and counter lists are still empty. *)
Theorem findASMFiles_sound (lib : StdSort) :
  forall (fs : Host.FileSystem) (f : ASMFileInfo),
    In f (findASMFiles fs) ->
    exists e digits,
      In (Host.Entry e) (Host.listing fs)
      /\ Host.is_regular_file e = true
      /\ filename f = Host.path e
      /\ Host.path_filename (Host.path e) =
           "aie_runtime_control" ++ digits ++ ".asm"
      /\ all_chars isdigit digits = true /\ digits <> EmptyString
      /\ asmId f = decimal_value 0 digits
      /\ 0 <= asmId f <= INT_MAX
      /\ timestamps f = [] /\ counters f = [].
Proof.
  intros fs f Hin. unfold findASMFiles in Hin.
  apply (Permutation_in _ (sort_Permutation asmId _)) in Hin.
  apply scan_directory_origin in Hin as [[]|(e & m & id & Hi & Hr & M & S & ->)].
  pose proof (stoi_capture_range _ _ _ M S) as Hrange.
  apply filenamePattern_names in M as (digits & En & Hd & Hne & ->).
  rewrite submatch_1 in S. rewrite (stoi_digits _ Hd Hne) in S.
  destruct (decimal_value 0 digits <=? INT_MAX); [|discriminate].
  injection S as <-.
  exists e, digits. cbn [filename asmId timestamps counters new_ASMFileInfo].
  repeat split; auto; try lia.
  intros ->. discriminate.
Qed.

(** X7 on the sample directory: the file of tile group 2. *)
Lemma findASMFiles_sound_witness :
  exists e digits,
    In (Host.Entry e) (Host.listing fs_ok)
    /\ Host.path_filename (Host.path e) =
         "aie_runtime_control" ++ digits ++ ".asm"
    /\ decimal_value 0 digits = 2.
Proof.
  destruct (findASMFiles_sound insertion_sort fs_ok
              (new_ASMFileInfo "/work/sub/aie_runtime_control2.asm" 2))
    as (e & digits & Hi & _ & _ & Hn & _ & _ & Hid & _).
  - vm_compute. auto.
  - exists e, digits. repeat split; auto.
Defined.

Lemma scan_directory_cut (before after : list Host.DirStep)
      (step : Host.DirStep) (acc : list ASMFileInfo) :
  stops_scan step = true ->
  scan_directory (before ++ step :: after) acc = scan_directory before acc.
Proof.
  intros Hstop. revert acc.
  induction before as [|[e|] before IH]; intros acc; cbn [app scan_directory].
  - destruct step as [e|]; [|reflexivity]. cbn [stops_scan] in Hstop.
    destruct (Host.is_regular_file e); [|discriminate]. cbn [negb andb] in *.
    destruct (regex_match false filenamePattern
                (Host.path_filename (Host.path e))) as [m|]; [|discriminate].
    destruct (stoi (submatch m 1)); [discriminate | reflexivity].
  - destruct (Host.is_regular_file e); cbn [negb]; [|apply IH].
    destruct (regex_match false filenamePattern
                (Host.path_filename (Host.path e))) as [m|]; [|apply IH].
    destruct (stoi (submatch m 1)); [apply IH | reflexivity].
  - reflexivity.
Qed.

(** X8. An exception inside the directory loop (raised by the iterator,
    or by [std::stoi] on a matching name whose id exceeds [INT_MAX]) ends
    the discovery without reaching the caller: findASMFiles returns what
    the entries in front of that step give, sorted, and nothing that is
    listed from that step on has any influence. *)
Theorem findASMFiles_cut_short (lib : StdSort) :
  forall (fs fs' : Host.FileSystem) (before after : list Host.DirStep)
         (step : Host.DirStep),
    Host.listing fs = (before ++ step :: after)%list ->
    stops_scan step = true ->
    Host.listing fs' = before ->
    findASMFiles fs = findASMFiles fs'
    /\ (Forall (fun s => stops_scan s = false) before ->
        findASMFiles fs =
        std_sort (fun a b => asmId a <? asmId b) (flat_map found before)).
Proof.
  intros fs fs' before after step Hl Hstop Hl'.
  unfold findASMFiles. rewrite Hl, Hl', scan_directory_cut by exact Hstop.
  split; [reflexivity|].
  intros Hok. now rewrite scan_directory_found by exact Hok.
Qed.

(** X8 on a listing of three steps with an iterator fault in the middle:
    only the first control file is discovered. *)
Lemma findASMFiles_cut_short_witness :
  findASMFiles
    {| Host.current_path := "/work";
       Host.listing := [regular "/work/aie_runtime_control3.asm";
                        Host.IterFault;
                        regular "/work/aie_runtime_control1.asm"];
       Host.readable := [];
       Host.output_openable := true |}
  = [new_ASMFileInfo "/work/aie_runtime_control3.asm" 3].
Proof.
  destruct (findASMFiles_cut_short insertion_sort
              {| Host.current_path := "/work";
                 Host.listing := [regular "/work/aie_runtime_control3.asm";
                                  Host.IterFault;
                                  regular "/work/aie_runtime_control1.asm"];
                 Host.readable := [];
                 Host.output_openable := true |}
              {| Host.current_path := "/work";
                 Host.listing := [regular "/work/aie_runtime_control3.asm"];
                 Host.readable := [];
                 Host.output_openable := true |}
              [regular "/work/aie_runtime_control3.asm"]
              [regular "/work/aie_runtime_control1.asm"]
              Host.IterFault eq_refl eq_refl eq_refl) as [_ H].
  rewrite H; [vm_compute; reflexivity | repeat constructor].
Defined.

(** X9. When no step cuts the scan short, findASMFiles misses nothing:
    every regular file of the listing whose base name is
    [aie_runtime_control<digits>.asm] is returned, with the number the
    digits denote as its id, wherever in the directory tree it lies. *)
Theorem findASMFiles_complete (lib : StdSort) :
  forall (fs : Host.FileSystem) (e : Host.DirEntry) (digits : string),
    Forall (fun s => stops_scan s = false) (Host.listing fs) ->
    In (Host.Entry e) (Host.listing fs) ->
    Host.is_regular_file e = true ->
    Host.path_filename (Host.path e) =
      "aie_runtime_control" ++ digits ++ ".asm" ->
    all_chars isdigit digits = true -> digits <> EmptyString ->
    In (new_ASMFileInfo (Host.path e) (decimal_value 0 digits))
       (findASMFiles fs)
    /\ decimal_value 0 digits <= INT_MAX.
Proof.
  intros fs e digits Hok Hin Hreg Hname Hd Hne.
  assert (Hempty : empty digits = false)
    by (destruct digits; [now elim Hne | reflexivity]).
  assert (M : regex_match false filenamePattern
                (Host.path_filename (Host.path e)) = Some [digits]).
  { apply filenamePattern_names. exists digits. auto. }
  pose proof Hok as Hstep. rewrite Forall_forall in Hstep.
  specialize (Hstep _ Hin). cbn [stops_scan] in Hstep.
  rewrite Hreg, M, submatch_1, (stoi_digits _ Hd Hempty) in Hstep.
  cbn [andb] in Hstep.
  destruct (Z.leb_spec (decimal_value 0 digits) INT_MAX) as [Hle|];
    [|discriminate].
  split; [|exact Hle].
  unfold findASMFiles.
  apply (Permutation_in _ (Permutation_sym (sort_Permutation asmId _))).
  rewrite scan_directory_found by exact Hok. cbn [app].
  apply in_flat_map. exists (Host.Entry e). split; [exact Hin|].
  cbn [found]. rewrite Hreg, M, submatch_1, (stoi_digits _ Hd Hempty).
  apply Z.leb_le in Hle. rewrite Hle. now left.
Qed.

(** X9 on the sample directory: the control file in the subdirectory. *)
Lemma findASMFiles_complete_witness :
  In (new_ASMFileInfo "/work/sub/aie_runtime_control2.asm" 2)
     (findASMFiles fs_ok).
Proof.
  refine (proj1 (findASMFiles_complete insertion_sort fs_ok
                   {| Host.path := "/work/sub/aie_runtime_control2.asm";
                      Host.is_regular_file := true |} "2" _ _ _ _ _ _)).
  - repeat constructor.
  - vm_compute. auto.
  - reflexivity.
  - reflexivity.
  - reflexivity.
  - discriminate.
Defined.

(** *** formatAddress: no two addresses share a text *)

Lemma formatAddress_value (address : Z) :
  0 <= address < 2 ^ 64 ->
  formatAddress address = "0x" ++ setw_fill 10 "0" (hex address)
  /\ hex_value 0 (setw_fill 10 "0" (hex address)) = address.
Proof.
  intros H. split; [reflexivity|]. unfold setw_fill, hex.
  rewrite hex_value_app, hex_value_zeros.
  apply hex_value_digits. change (16 ^ Z.of_nat 16) with (2 ^ 64). exact H.
Qed.

(** X10. formatAddress is injective on 64-bit values: two addresses with
    the same text are the same address, so a register can be told from
    its [read_reg] line.  The text is never shorter than the prefix and
    ten digits. *)
Theorem formatAddress_injective :
  forall a b : Z,
    0 <= a < 2 ^ 64 -> 0 <= b < 2 ^ 64 ->
    (formatAddress a = formatAddress b -> a = b)
    /\ (12 <= String.length (formatAddress a))%nat.
Proof.
  intros a b Ha Hb. split.
  - intros E.
    destruct (formatAddress_value a Ha) as [Ea Va].
    destruct (formatAddress_value b Hb) as [Eb Vb].
    rewrite Ea, Eb in E. cbn [append] in E. injection E as E.
    rewrite <- Va, <- Vb. now rewrite E.
  - unfold formatAddress, setw_fill. cbn [append String.length].
    rewrite length_append, length_repeat_char. lia.
Qed.

(** X10 on two addresses of the sample device. *)
Lemma formatAddress_injective_witness :
  (12 <= String.length (formatAddress 0x223752c))%nat
  /\ (formatAddress 0x223752c = formatAddress 0x12091024 -> False).
Proof.
  destruct (formatAddress_injective 0x223752c 0x12091024) as [Hinj Hlen];
    [lia | lia |].
  split; [exact Hlen|]. intros E. specialize (Hinj E). discriminate.
Defined.

(** *** writeCTFile: the loops that write lists *)

Lemma write_counter_metadata_from (rest : list CTCounterInfo) (i size : Z) :
  0 <= i -> i + Z.of_nat (List.length rest) = size -> size < 2 ^ 64 ->
  write_counter_metadata rest i size =
  comma_lines (map counter_metadata_entry rest).
Proof.
  revert i. induction rest as [|c rest IH]; intros i Hi Hsize Hmax.
  - reflexivity.
  - cbn [List.length] in Hsize. rewrite Nat2Z.inj_succ in Hsize.
    cbn [write_counter_metadata map].
    rewrite (u64_small (size - 1)), (u64_small (i + 1)) by lia.
    rewrite IH by lia.
    destruct rest as [|c' rest].
    + cbn [List.length Z.of_nat] in Hsize.
      destruct (Z.ltb_spec i (size - 1)); [lia|]. reflexivity.
    + cbn [List.length] in Hsize. rewrite Nat2Z.inj_succ in Hsize.
      destruct (Z.ltb_spec i (size - 1)); [|lia]. reflexivity.
Qed.

(** X11. The counter-metadata loop of writeCTFile writes one line per
    counter, in order, with a comma after every entry except the last, so
    the list literal has no trailing comma; for no counter it writes
    nothing. *)
Theorem write_counter_metadata_commas :
  forall allCounters : list CTCounterInfo,
    Z.of_nat (List.length allCounters) < 2 ^ 64 ->
    write_counter_metadata allCounters 0
      (Z.of_nat (List.length allCounters)) =
    comma_lines (map counter_metadata_entry allCounters).
Proof.
  intros allCounters H. apply write_counter_metadata_from; lia.
Qed.

(** X11 on the three counters of the sample device. *)
Lemma write_counter_metadata_commas_witness :
  write_counter_metadata (getConfiguredCounters hdr0 wr0 db0) 0 3 =
  comma_lines (map counter_metadata_entry (getConfiguredCounters hdr0 wr0 db0)).
Proof.
  refine (write_counter_metadata_commas (getConfiguredCounters hdr0 wr0 db0) _).
  vm_compute. reflexivity.
Defined.

Lemma concat_join (sep x : string) (l : list string) :
  String.concat sep (x :: l) = x ++ join (map (fun y => sep ++ y) l).
Proof.
  revert x. induction l as [|y l IH]; intros x.
  - simpl. now rewrite append_empty_r.
  - change (String.concat sep (x :: y :: l))
      with (x ++ sep ++ String.concat sep (y :: l)).
    rewrite IH. cbn [map join]. now rewrite append_assoc.
Qed.

Lemma write_line_list_next (ts : list SaveTimestampInfo) (i : Z) :
  0 < i -> i + Z.of_nat (List.length ts) < 2 ^ 64 ->
  write_line_list ts i =
  join (map (fun y => "," ++ y) (map (fun t => dec (lineNumber t)) ts)).
Proof.
  revert i. induction ts as [|t ts IH]; intros i Hi Hmax; [reflexivity|].
  cbn [List.length] in Hmax. rewrite Nat2Z.inj_succ in Hmax.
  cbn [write_line_list map join].
  rewrite (u64_small (i + 1)) by lia.
  destruct (Z.gtb_spec i 0); [|lia].
  rewrite IH by lia. now rewrite append_assoc.
Qed.

(** X12. The line list of a probe declaration is the word [line] followed
    by the marker line numbers in decimal, in the order of the markers,
    separated by single commas with none in front and none behind. *)
Theorem write_line_list_joined :
  forall ts : list SaveTimestampInfo,
    Z.of_nat (List.length ts) < 2 ^ 64 ->
    "line" ++ write_line_list ts 0 =
    "line" ++ String.concat "," (map (fun t => dec (lineNumber t)) ts).
Proof.
  intros ts H. f_equal. destruct ts as [|t ts]; [reflexivity|].
  cbn [List.length] in H. rewrite Nat2Z.inj_succ in H.
  rewrite map_cons, concat_join.
  cbn [write_line_list]. change (0 >? 0) with false. cbn [append].
  rewrite (u64_small (0 + 1)) by lia.
  now rewrite write_line_list_next by lia.
Qed.

(** X12 on the two markers of the first sample control file. *)
Lemma write_line_list_joined_witness :
  "line" ++ write_line_list [{| lineNumber := 2; optionalIndex := 3 |};
                             {| lineNumber := 4; optionalIndex := -1 |}] 0
  = "line2,4".
Proof.
  refine (eq_trans (write_line_list_joined _ _) _);
    vm_compute; reflexivity.
Defined.

Lemma write_counter_reads_from (cs : list CTCounterInfo) (i : Z) :
  0 <= i -> i + Z.of_nat (List.length cs) < 2 ^ 64 ->
  write_counter_reads cs i = join (map read_line (numbered i cs)).
Proof.
  revert i. induction cs as [|c cs IH]; intros i Hi Hmax; [reflexivity|].
  cbn [List.length] in Hmax. rewrite Nat2Z.inj_succ in Hmax.
  cbn [write_counter_reads numbered map join].
  rewrite (u64_small (i + 1)), IH by lia.
  unfold read_line, ctr. cbn [fst snd].
  rewrite !append_assoc. reflexivity.
Qed.

Lemma write_counter_names_next (cs : list CTCounterInfo) (i : Z) :
  0 < i -> i + Z.of_nat (List.length cs) < 2 ^ 64 ->
  write_counter_names cs i =
  join (map (fun y => ", " ++ y) (map (fun ic => ctr (fst ic)) (numbered i cs))).
Proof.
  revert i. induction cs as [|c cs IH]; intros i Hi Hmax; [reflexivity|].
  cbn [List.length] in Hmax. rewrite Nat2Z.inj_succ in Hmax.
  cbn [write_counter_names numbered map join fst].
  rewrite (u64_small (i + 1)) by lia.
  destruct (Z.gtb_spec i 0); [|lia].
  rewrite IH by lia. unfold ctr. cbn [append]. reflexivity.
Qed.

Lemma dec_injective (a b : Z) :
  0 <= a < 2 ^ 64 -> 0 <= b < 2 ^ 64 -> dec a = dec b -> a = b.
Proof.
  intros Ha Hb E. unfold dec in E.
  destruct (Z.ltb_spec a 0); [lia|]. destruct (Z.ltb_spec b 0); [lia|].
  rewrite <- (decimal_value_digits 20 a), <- (decimal_value_digits 20 b);
    [now rewrite E | |];
    change (10 ^ Z.of_nat 20) with 100000000000000000000; lia.
Qed.

Lemma numbered_positions {A : Type} (l : list A) (i k : Z) (x : A) :
  In (k, x) (numbered i l) -> i <= k < i + Z.of_nat (List.length l).
Proof.
  revert i. induction l as [|y l IH]; intros i H; [contradiction|].
  cbn [List.length]. rewrite Nat2Z.inj_succ.
  destruct H as [H|H]; [injection H as <- _; lia|].
  specialize (IH _ H). lia.
Qed.

Lemma numbered_length {A : Type} (l : list A) (i : Z) :
  List.length (numbered i l) = List.length l.
Proof.
  revert i. induction l as [|x l IH]; intros i; [reflexivity|].
  cbn [numbered List.length]. f_equal. apply IH.
Qed.

Lemma ctr_names_NoDup (cs : list CTCounterInfo) (i : Z) :
  0 <= i -> i + Z.of_nat (List.length cs) < 2 ^ 64 ->
  NoDup (map (fun ic => ctr (fst ic)) (numbered i cs)).
Proof.
  revert i. induction cs as [|c cs IH]; intros i Hi Hmax; [constructor|].
  cbn [List.length] in Hmax. rewrite Nat2Z.inj_succ in Hmax.
  cbn [numbered map fst]. constructor; [|apply IH; lia].
  intros Hin. apply in_map_iff in Hin as ([k x] & E & Hk).
  apply numbered_positions in Hk. cbn [fst] in E.
  unfold ctr in E. cbn [append] in E. injection E as E.
  apply dec_injective in E; lia.
Qed.

(** X13. In a probe block the counters associated with the file are read
    in order into the variables [ctr_0], [ctr_1], ... (the i-th line
    reads the register of the i-th counter), the record appended
    afterwards lists exactly those variables in the same order separated
    by a comma and a blank, and no variable name is used twice. *)
Theorem write_counter_variables :
  forall cs : list CTCounterInfo,
    Z.of_nat (List.length cs) < 2 ^ 64 ->
    write_counter_reads cs 0 = join (map read_line (numbered 0 cs))
    /\ write_counter_names cs 0 =
       String.concat ", " (map (fun ic => ctr (fst ic)) (numbered 0 cs))
    /\ NoDup (map (fun ic => ctr (fst ic)) (numbered 0 cs))
    /\ List.length (numbered 0 cs) = List.length cs.
Proof.
  intros cs H. split; [apply write_counter_reads_from; lia|].
  split; [|split; [apply ctr_names_NoDup; lia|]].
  - destruct cs as [|c cs]; [reflexivity|].
    cbn [List.length] in H. rewrite Nat2Z.inj_succ in H.
    cbn [numbered map fst]. rewrite concat_join.
    cbn [write_counter_names]. change (0 >? 0) with false.
    rewrite (u64_small (0 + 1)) by lia.
    rewrite write_counter_names_next by lia.
    unfold ctr. cbn [append]. reflexivity.
  - apply numbered_length.
Qed.

(** X13 on the three counters of the sample device: three read lines in
    the order of the counters, three variables listed with their
    separators, and no variable twice. *)
Lemma write_counter_variables_witness :
  write_counter_reads (getConfiguredCounters hdr0 wr0 db0) 0 =
    "    ctr_0 = read_reg(0x000223752c)" ++ nl ++
    "    ctr_1 = read_reg(0x0012091024)" ++ nl ++
    "    ctr_2 = read_reg(0x001e137520)" ++ nl
  /\ write_counter_names (getConfiguredCounters hdr0 wr0 db0) 0 =
       "ctr_0, ctr_1, ctr_2"
  /\ NoDup ["ctr_0"; "ctr_1"; "ctr_2"].
Proof.
  destruct (write_counter_variables (getConfiguredCounters hdr0 wr0 db0))
    as (R & N & D & _); [vm_compute; reflexivity|].
  split; [rewrite R; vm_compute; reflexivity|].
  split; [rewrite N; vm_compute; reflexivity|].
  vm_compute in D. exact D.
Defined.

(** *** generate *)

Lemma parse_and_filter_throw_inv (fs : Host.FileSystem)
      (cs : list CTCounterInfo) (files : list ASMFileInfo) (h : bool)
      (e : exn) :
  parse_and_filter fs cs files h = Throw e ->
  exists f, In f files /\ parseSaveTimestamps fs (filename f) = Throw e.
Proof.
  revert h. induction files as [|f rest IH]; intros h H; [discriminate|].
  cbn [parse_and_filter] in H.
  destruct (parseSaveTimestamps fs (filename f)) as [ts|e'] eqn:P.
  - cbn [bind] in H.
    destruct (parse_and_filter fs cs rest _) as [r|e'] eqn:R;
      [discriminate|].
    cbn [bind] in H. injection H as ->.
    destruct (IH _ R) as (g & Hin & Hg). exists g. split; [now right|exact Hg].
  - cbn [bind] in H. injection H as ->. exists f. split; [now left|exact P].
Qed.

Lemma parse_and_filter_ids (fs : Host.FileSystem) (cs : list CTCounterInfo)
      (files files' : list ASMFileInfo) (h h' : bool) :
  parse_and_filter fs cs files h = Ok (files', h') ->
  map asmId files' = map asmId files.
Proof.
  intros H. destruct (parse_and_filter_sound _ _ _ _ _ _ H) as [HF _].
  clear H. induction HF as [|f f' l l' [_ Hf] _ IH]; [reflexivity|].
  cbn [map]. rewrite IH, Hf. reflexivity.
Qed.

Lemma StronglySorted_map_filter {A : Type} (key : A -> Z) (p : A -> bool)
      (l : list A) :
  StronglySorted Z.le (map key l) ->
  StronglySorted Z.le (map key (filter p l)).
Proof.
  induction l as [|x l IH]; cbn [map filter]; intros H; [constructor|].
  inversion H as [|? ? Hs Hall]; subst.
  destruct (p x); [|now apply IH].
  cbn [map]. constructor; [now apply IH|].
  rewrite Forall_forall in *. intros k Hk.
  apply in_map_iff in Hk as (y & <- & Hy).
  apply filter_In in Hy as [Hy _]. apply Hall. now apply in_map.
Qed.

Lemma generate_past_gates {lib : StdSort} (hdr : Header) (this : AieProfileCTWriter)
      (fs : Host.FileSystem) (db : StaticInfo.Store)
      (r : bool * option CTFile) :
  generate hdr this fs db = Ok r -> r <> (false, None) ->
  findASMFiles fs <> [] /\ getConfiguredCounters hdr this db <> [].
Proof.
  intros H Hr. split; intros E.
  - rewrite (generate_no_files hdr this fs db E) in H. congruence.
  - rewrite (generate_no_counters hdr this fs db E) in H. congruence.
Qed.

(** A path has no file name exactly when it is empty or ends in a
    separator. *)
Lemma has_filename_spec (p : string) :
  Host.has_filename p = false <->
  p = EmptyString \/ exists dir, p = dir ++ "/".
Proof.
  induction p as [|c p IH]; [split; auto|].
  destruct p as [|c' p].
  - cbn [Host.has_filename]. destruct (Ascii.eqb_spec c "/") as [->|Hc];
      cbn [negb]; split; try discriminate.
    + intros _. right. now exists EmptyString.
    + reflexivity.
    + intros [E|[[|d dir] E]]; [discriminate| |].
      * injection E as E. now elim Hc.
      * injection E as _ E. destruct dir; discriminate.
  - change (Host.has_filename (String c (String c' p)))
      with (Host.has_filename (String c' p)).
    rewrite IH. split.
    + intros [E|[dir E]]; [discriminate|].
      right. exists (String c dir). cbn [append]. now rewrite E.
    + intros [E|[[|d dir] E]]; [discriminate|discriminate|].
      right. exists dir. now injection E.
Qed.

(** X14. generate() writes the CT file, and returns [true], exactly when
    a control file was found, a counter is configured, every found file
    parses without a throw, some found file has a marker, and the output
    file opens.  Whenever it returns, either it returns [false] and has
    written nothing, or it returns [true] and has written one file, whose
    path is the output file name appended to the working directory: for
    a relative file name, directly behind a working directory that ends
    in a separator (as the root directory does), and behind one
    separator otherwise. *)
Theorem generate_writes_iff (lib : StdSort) :
  forall (hdr : Header) (this : AieProfileCTWriter) (fs : Host.FileSystem)
         (db : StaticInfo.Store),
    ((exists file, generate hdr this fs db = Ok (true, Some file))
     <-> writes_ct_file hdr this fs db)
    /\ (forall b o,
          generate hdr this fs db = Ok (b, o) ->
          (b = false /\ o = None)
          \/ (b = true
              /\ exists text,
                   o = Some {| ct_path :=
                                 Host.path_append (Host.current_path fs)
                                                  (CT_OUTPUT_FILENAME hdr);
                               ct_text := text |}
                   /\ text <> EmptyString))
    /\ (Host.is_absolute (CT_OUTPUT_FILENAME hdr) = false ->
        (forall dir, Host.current_path fs = dir ++ "/" ->
           Host.path_append (Host.current_path fs) (CT_OUTPUT_FILENAME hdr)
           = Host.current_path fs ++ CT_OUTPUT_FILENAME hdr)
        /\ (Host.current_path fs <> EmptyString ->
            (forall dir, Host.current_path fs <> dir ++ "/") ->
            Host.path_append (Host.current_path fs) (CT_OUTPUT_FILENAME hdr)
            = Host.current_path fs ++ "/" ++ CT_OUTPUT_FILENAME hdr)).
Proof.
  intros hdr this fs db. split; [split|split].
  - intros [file H]. unfold writes_ct_file.
    destruct (generate_past_gates _ _ _ _ _ H) as [Hf Hc]; [discriminate|].
    destruct (generate_true_inv _ _ _ _ _ H) as (asmFiles & E & Hopen & _).
    destruct (parse_and_filter_sound _ _ _ _ _ _ E) as [HF Hh].
    split; [exact Hf|]. split; [exact Hc|]. split; [|split; [|exact Hopen]].
    + intros f Hin.
      destruct (Forall2_In_l _ _ _ _ HF Hin) as (f' & _ & P & _). eauto.
    + cbn [orb] in Hh. symmetry in Hh.
      apply existsb_exists in Hh as (f' & Hin' & Hts).
      destruct (Forall2_In_r _ _ _ _ HF Hin') as (f & Hin & P & _).
      exists f, (timestamps f'). split; [exact Hin|]. split; [exact P|].
      intros N. rewrite N in Hts. discriminate.
  - intros (Hf & Hc & Hall & (f & ts & Hin & P & Hts) & Hopen).
    rewrite generate_step3 by assumption.
    destruct (parse_and_filter_complete fs (getConfiguredCounters hdr this db)
                (findASMFiles fs) false) as (files' & h' & E).
    { apply Forall_forall. exact Hall. }
    rewrite E.
    destruct (parse_and_filter_sound _ _ _ _ _ _ E) as [HF ->].
    destruct (Forall2_In_l _ _ _ _ HF Hin) as (f' & Hin' & P' & _).
    assert (Hex : existsb (fun f' => negb (is_nil (timestamps f'))) files'
                  = true).
    { apply existsb_exists. exists f'. split; [assumption|].
      assert (timestamps f' = ts) as -> by congruence.
      destruct ts; [congruence | reflexivity]. }
    rewrite Hex. cbn [orb]. unfold writeCTFile. rewrite Hopen. cbn [negb].
    eauto.
  - intros b o H. unfold generate in H.
    destruct (is_nil (findASMFiles fs)); [injection H as <- <-; now left|].
    destruct (is_nil (getConfiguredCounters hdr this db));
      [injection H as <- <-; now left|].
    destruct (parse_and_filter fs _ _ false) as [[asmFiles [|]]|];
      cbn [bind negb] in H; [| |discriminate].
    + unfold writeCTFile in H.
      destruct (Host.output_openable fs); cbn [negb] in H;
        injection H as <- <-; [right | now left].
      split; [reflexivity|]. eexists. split; [reflexivity|].
      apply ct_contents_nonempty.
    + injection H as <- <-. now left.
  - intros Hrel. unfold Host.path_append. rewrite Hrel.
    pose proof (has_filename_spec (Host.current_path fs)) as Hspec.
    split.
    + intros dir Hdir.
      destruct (Host.has_filename (Host.current_path fs)); [|reflexivity].
      assert (true = false) by (apply Hspec; right; now exists dir).
      discriminate.
    + intros Hne Hsep.
      destruct (Host.has_filename (Host.current_path fs)); [reflexivity|].
      exfalso. destruct Hspec as [Hspec _].
      destruct (Hspec eq_refl) as [E|[dir E]];
        [now apply Hne | now apply (Hsep dir)].
Qed.

(** X14 with the root directory as working directory: the CT file is
    opened as [/aie_profile.ct], with one separator. *)
Lemma generate_writes_iff_witness :
  exists text,
    generate hdr0 wr0 fs_root db0 =
    Ok (true, Some {| ct_path := "/aie_profile.ct"; ct_text := text |}).
Proof.
  destruct (generate hdr0 wr0 fs_root db0) as [[[|] [file|]]|] eqn:G;
    try (vm_compute in G; discriminate).
  destruct (generate_writes_iff insertion_sort hdr0 wr0 fs_root db0)
    as (_ & H & _).
  destruct (H true (Some file) G) as [[Hb _]|(_ & text & Ho & _)];
    [discriminate|].
  injection Ho as ->. exists text. reflexivity.
Defined.

(** X15. An exception leaves generate() exactly when a control file was
    found, a counter is configured, and parseSaveTimestamps throws on one
    of the found files; the exception is then [std::out_of_range].  In
    particular nothing is thrown at the first two gates, by the discovery
    or by the write step. *)
Theorem generate_throws_iff (lib : StdSort) :
  forall (hdr : Header) (this : AieProfileCTWriter) (fs : Host.FileSystem)
         (db : StaticInfo.Store) (e : exn),
    generate hdr this fs db = Throw e <->
    findASMFiles fs <> []
    /\ getConfiguredCounters hdr this db <> []
    /\ e = out_of_range
    /\ exists f, In f (findASMFiles fs)
                 /\ parseSaveTimestamps fs (filename f) = Throw out_of_range.
Proof.
  intros hdr this fs db e. split.
  - intros H.
    assert (Hf : findASMFiles fs <> []).
    { intros E. rewrite (generate_no_files hdr this fs db E) in H.
      discriminate. }
    assert (Hc : getConfiguredCounters hdr this db <> []).
    { intros E. rewrite (generate_no_counters hdr this fs db E) in H.
      discriminate. }
    rewrite generate_step3 in H by assumption.
    destruct (parse_and_filter fs _ _ false) as [[asmFiles [|]]|e'] eqn:E;
      try discriminate.
    injection H as ->.
    destruct (parse_and_filter_throw_inv _ _ _ _ _ E) as (f & Hin & P).
    assert (He : e = out_of_range).
    { destruct (parseSaveTimestamps_outcome fs (filename f)) as [[ts Q]|Q];
        congruence. }
    subst e. split; [exact Hf|]. split; [exact Hc|]. split; [reflexivity|].
    now exists f.
  - intros (Hf & Hc & -> & f & Hin & P).
    rewrite generate_step3 by assumption.
    rewrite parse_and_filter_throws; [reflexivity|].
    apply Exists_exists. now exists f.
Qed.

(** X16. In a written script the probe blocks stand between the begin
    block and the end block in ascending order of tile-group id.  There is
    one block for every found file that has a marker and a counter in its
    column range, written from the markers parsed from that file and the
    enumerated counters of its range, and no other block. *)
Theorem generate_probe_blocks_in_order (lib : StdSort) :
  forall (hdr : Header) (this : AieProfileCTWriter) (fs : Host.FileSystem)
         (db : StaticInfo.Store) (file : CTFile),
    generate hdr this fs db = Ok (true, Some file) ->
    exists blocks : list ASMFileInfo,
      ct_text file =
        header_comment ++ begin_block_open ++
        write_counter_metadata
          (getConfiguredCounters hdr this db) 0
          (Z.of_nat (List.length (getConfiguredCounters hdr this db)))
        ++ begin_block_close ++
        join (map probe_block blocks) ++
        end_block
      /\ StronglySorted Z.le (map asmId blocks)
      /\ (List.length blocks <= List.length (findASMFiles fs))%nat
      /\ (forall b,
            In b blocks ->
            timestamps b <> [] /\ counters b <> []
            /\ exists f,
                 In f (findASMFiles fs)
                 /\ parseSaveTimestamps fs (filename f) = Ok (timestamps b)
                 /\ b = set_counters (set_timestamps f (timestamps b))
                          (filterCountersByColumn
                             (getConfiguredCounters hdr this db)
                             (colStart f) (colEnd f)))
      /\ (forall f ts,
            In f (findASMFiles fs) ->
            parseSaveTimestamps fs (filename f) = Ok ts ->
            ts <> [] ->
            filterCountersByColumn (getConfiguredCounters hdr this db)
                                   (colStart f) (colEnd f) <> [] ->
            In (set_counters (set_timestamps f ts)
                  (filterCountersByColumn
                     (getConfiguredCounters hdr this db)
                     (colStart f) (colEnd f)))
               blocks).
Proof.
  intros hdr this fs db file H.
  destruct (generate_true_inv _ _ _ _ _ H) as (asmFiles & E & _ & ->).
  destruct (parse_and_filter_sound _ _ _ _ _ _ E) as [HF _].
  exists (filter has_probe_block asmFiles).
  split; [|split; [|split; [|split]]].
  - cbn [ct_text]. unfold ct_contents. now rewrite write_probes_join.
  - apply StronglySorted_map_filter.
    rewrite (parse_and_filter_ids _ _ _ _ _ _ E).
    unfold findASMFiles. apply sort_ordered.
  - rewrite (Forall2_length HF). apply filter_length_le.
  - intros b Hb. apply filter_In in Hb as [Hin Hp].
    unfold has_probe_block in Hp.
    split; [|split].
    + intros N. rewrite N in Hp. discriminate.
    + intros N. rewrite N in Hp. cbn [is_nil negb] in Hp.
      rewrite andb_false_r in Hp. discriminate.
    + destruct (Forall2_In_r _ _ _ _ HF Hin) as (f & Hf & P & Hb).
      exists f. auto.
  - intros f ts Hin P Hts Hcs.
    destruct (Forall2_In_l _ _ _ _ HF Hin) as (f' & Hin' & P' & Hf').
    assert (Ets : timestamps f' = ts) by congruence.
    rewrite Ets in Hf'. rewrite <- Hf'.
    apply filter_In. split; [exact Hin'|].
    unfold has_probe_block. rewrite Ets.
    replace (counters f') with
      (filterCountersByColumn (getConfiguredCounters hdr this db)
                              (colStart f) (colEnd f))
      by (rewrite Hf'; reflexivity).
    destruct ts; [congruence|].
    destruct (filterCountersByColumn _ _ _); [congruence | reflexivity].
Qed.

(** X16 on the sample run: the script written for the two control files
    holds its probe blocks in ascending order of tile-group id. *)
Lemma generate_probe_blocks_in_order_witness :
  exists file blocks,
    generate hdr0 wr0 fs_ok db0 = Ok (true, Some file)
    /\ ct_text file =
         header_comment ++ begin_block_open ++
         write_counter_metadata
           (getConfiguredCounters hdr0 wr0 db0) 0
           (Z.of_nat (List.length (getConfiguredCounters hdr0 wr0 db0)))
         ++ begin_block_close ++
         join (map probe_block blocks) ++
         end_block
    /\ StronglySorted Z.le (map asmId blocks).
Proof.
  destruct (generate hdr0 wr0 fs_ok db0) as [[[|] [file|]]|] eqn:G;
    try (vm_compute in G; discriminate).
  destruct (generate_probe_blocks_in_order insertion_sort hdr0 wr0 fs_ok db0 file G)
    as (blocks & Htext & Hsorted & _).
  exists file, blocks. split; [reflexivity|]. split; assumption.
Defined.
